(** * metasim.randomization.base: the seeded generator of a randomizer and
      its render-settle barrier

    A shallow embedding of [BaseRandomizerType] (metasim/randomization/base.py).
    Python objects that are mutated in place and may be aliased (the
    [random.Random] instances) live in a store and are named by references;
    the randomizer instance itself is passed and returned explicitly.
    Everything the class calls but does not own (the [random] module, the
    handler with its scene, sim and sensors, the Omniverse modules found by
    [import]) is a parameter of the development. *)

From Stdlib Require Import ZArith Lia List.
From stdpp Require Import base list strings gmap.
Import ListNotations.
Local Open Scope Z_scope.

(** ** Exceptions, log records and the trace of a run *)

(** The [except] clauses of the module tell two classes apart: [ImportError]
    (with its subclasses) and every other subclass of [Exception].  A value
    of [exn] is an instance of Python's [Exception]; [exn_str] is what
    [f"{err}"] prints. *)
Inductive exn_class := ImportError | OtherException.

Record exn := Exn { exn_class_of : exn_class; exn_str : string }.

Inductive result (A : Type) :=
| Ok (a : A)
| Raise (e : exn).
Arguments Ok {A} a.
Arguments Raise {A} e.

(** loguru levels used by the module. *)
Inductive level := DEBUG | WARNING.

(** The operations the barrier performs on objects it does not own. *)
Inductive op :=
| SceneUpdate (dt : Z)                      (* scene.update(dt=..) *)
| SimHasGui                                 (* sim.has_gui() *)
| SimHasRtxSensors                          (* sim.has_rtx_sensors() *)
| SimRender                                 (* sim.render() *)
| SensorUpdate (name : string) (dt : Z)     (* sensors[name].update(dt=..) *)
| ImportMaterialLibrary                     (* import omni.kit.material.library *)
| MatlibWaitFn                              (* matlib.wait_for_pending_refreshes() *)
| MatlibGetInstance                         (* matlib.get_instance() *)
| InstanceWait (attr_name : string)         (* instance.<attr_name>() *)
| ImportAsyncEngine                         (* from omni.kit.async_engine import get_async_engine *)
| GetAsyncEngine                            (* get_async_engine() *)
| WaitForTasks.                             (* engine.wait_for_tasks() *)

(** One entry of the trace: an operation that was attempted, with the
    exception it raised if any, or a record handed to the logger. *)
Inductive event :=
| EvCall (o : op) (raised : option exn)
| EvLog (l : level) (msg : string).

(** *** Reading a trace *)

(** The operations attempted, each with its outcome, in order. *)
Definition calls (t : list event) : list (op * option exn) :=
  omap (fun ev => match ev with EvCall o r => Some (o, r) | EvLog _ _ => None end) t.

(** The scene updates attempted: the time step passed and the outcome. *)
Definition scene_updates (t : list event) : list (Z * option exn) :=
  omap (fun c => match fst c with SceneUpdate dt => Some (dt, snd c) | _ => None end) (calls t).

(** The sensor updates attempted: the key of the sensor and the time step. *)
Definition sensor_updates (t : list event) : list (string * Z) :=
  omap (fun c => match fst c with SensorUpdate name dt => Some (name, dt) | _ => None end)
       (calls t).

Definition is_scene_op (o : op) : bool :=
  match o with SceneUpdate _ => true | _ => false end.

Definition is_sim_op (o : op) : bool :=
  match o with SimHasGui | SimHasRtxSensors | SimRender => true | _ => false end.

Definition is_sensor_op (o : op) : bool :=
  match o with SensorUpdate _ _ => true | _ => false end.

Definition is_settle_op (o : op) : bool := is_scene_op o || is_sim_op o || is_sensor_op o.

(** Locating the material library or calling anything of it. *)
Definition is_material_op (o : op) : bool :=
  match o with
  | ImportMaterialLibrary | MatlibWaitFn | MatlibGetInstance | InstanceWait _ => true
  | _ => false
  end.

Definition is_async_op (o : op) : bool :=
  match o with ImportAsyncEngine | GetAsyncEngine | WaitForTasks => true | _ => false end.

Definition is_import (o : op) : bool :=
  match o with ImportMaterialLibrary | ImportAsyncEngine => true | _ => false end.

(** Every operation attempted in [t] satisfies [P]. *)
Definition only (P : op -> bool) (t : list event) : bool :=
  forallb (fun c => P (fst c)) (calls t).

Definition level_eqb (a b : level) : bool :=
  match a, b with DEBUG, DEBUG | WARNING, WARNING => true | _, _ => false end.

(** Every operation of [t] that raised [e] is followed at once by a log
    record of level [lv o e]; nothing is asked where [lv o e] is [None]. *)
Fixpoint failures_logged (lv : op -> exn -> option level) (t : list event) : bool :=
  match t with
  | [] => true
  | EvCall o (Some e) :: t' =>
      match lv o e with
      | None => failures_logged lv t'
      | Some l =>
          match t' with
          | EvLog l' _ :: _ => level_eqb l l' && failures_logged lv t'
          | _ => false
          end
      end
  | _ :: t' => failures_logged lv t'
  end.

(** The levels the error-handling design of the specification gives: a
    collaborator that cannot be imported is logged at debug level, every
    other failure of a collaborator at warning level. *)
Definition spec_level (o : op) (e : exn) : option level :=
  match exn_class_of e with
  | ImportError => if is_import o then Some DEBUG else Some WARNING
  | OtherException => Some WARNING
  end.

(** The levels of the handlers of the module: the three handlers of the
    settle loop log at debug level; the handlers of the two waits log an
    [ImportError] at debug level and anything else at warning level. *)
Definition code_level (o : op) (e : exn) : option level :=
  if is_settle_op o then Some DEBUG
  else match exn_class_of e with
       | ImportError => Some DEBUG
       | OtherException => Some WARNING
       end.

(** [code_level] without the case of an [ImportError] that comes out of a
    call of a collaborator that was imported. *)
Definition amended_level (o : op) (e : exn) : option level :=
  if is_settle_op o then Some DEBUG
  else match exn_class_of e with
       | ImportError => if is_import o then Some DEBUG else None
       | OtherException => Some WARNING
       end.

(** The scene updates of [t] that returned. *)
Definition completed_updates (t : list event) : nat :=
  length (filter (fun u => snd u = None) (scene_updates t)).

(** What a settle loop of [n] passes over sensors with keys [keys] leaves:
    [k] passes ran their sensor updates; either all [n] scene updates
    returned, or the one after the first [k] raised and was the last. *)
Definition settle_outcome (n : nat) (keys : list (string * Z)) (t : list event) : Prop :=
  exists k : nat,
    sensor_updates t = concat (replicate k keys) /\
    ((k = n /\ scene_updates t = replicate n (0, None)) \/
     (exists e, (k < n)%nat /\ scene_updates t = replicate k (0, None) ++ [(0, Some e)])).

(** No scene update of [t] raised. *)
Definition scene_updates_returned (t : list event) : bool :=
  forallb (fun u => match snd u with None => true | Some _ => false end) (scene_updates t).

(** A trace whose operations all satisfy [P] and whose failures are
    logged as the handlers of the module log them. *)
Definition tidy (P : op -> bool) (t : list event) : Prop :=
  only P t = true /\ failures_logged code_level t = true.

(** ** The [random] module *)

(** [random.Random] is CPython's; the class uses its constructor on an
    integer and draws bits.  [Random a] is the state of [random.Random(a)],
    [getrandbits k] is one draw. *)
Class RandomLib := {
  mt_state : Type;
  Random : Z -> mt_state;
  getrandbits : Z -> mt_state -> Z * mt_state
}.

(** The draws [getrandbits(k)] for [k] in [ks], made one after the other on
    a generator in state [g], as a function. *)
Fixpoint stream `{RandomLib} (g : mt_state) (ks : list Z) : list Z :=
  match ks with
  | [] => []
  | k :: ks' => let '(v, g') := getrandbits k g in v :: stream g' ks'
  end.

(** A reference to a [random.Random] object: its rank of allocation. *)
Abbreviation ref := nat (only parsing).

Section Monad.

Context {R : RandomLib}.
(** What the host process holds besides the generators. *)
Context {W : Type}.

(** The process: the hidden instance behind the module-level functions of
    [random], the [random.Random] objects allocated so far, and the rest. *)
Record World := {
  g_inst : mt_state;
  objs : list mt_state;
  host : W
}.

Definition with_objs (w : World) (o : list mt_state) : World :=
  {| g_inst := g_inst w; objs := o; host := host w |}.

Definition with_g_inst (w : World) (g : mt_state) : World :=
  {| g_inst := g; objs := objs w; host := host w |}.

(** A Python computation: runs in a world, returns or raises, and leaves
    the events it produced, oldest first. *)
Definition Py (A : Type) : Type := World -> result A * World * list event.

Definition ret {A} (a : A) : Py A := fun w => (Ok a, w, []).

Definition raise {A} (e : exn) : Py A := fun w => (Raise e, w, []).

Definition bind {A B} (m : Py A) (k : A -> Py B) : Py B := fun w =>
  match m w with
  | (Ok a, w1, t1) => let '(r, w2, t2) := k a w1 in (r, w2, t1 ++ t2)
  | (Raise e, w1, t1) => (Raise e, w1, t1)
  end.

(** [try: body  except Exception as err: handler err]. *)
Definition try_except {A} (body : Py A) (handler : exn -> Py A) : Py A := fun w =>
  match body w with
  | (Ok a, w1, t1) => (Ok a, w1, t1)
  | (Raise e, w1, t1) => let '(r, w2, t2) := handler e w1 in (r, w2, t1 ++ t2)
  end.

(** A method or function of a collaborator. *)
Definition call (A : Type) : Type := World -> result A * World.

(** Calling a collaborator records the attempt and its outcome. *)
Definition invoke {A} (o : op) (f : call A) : Py A := fun w =>
  match f w with
  | (Ok a, w1) => (Ok a, w1, [EvCall o None])
  | (Raise e, w1) => (Raise e, w1, [EvCall o (Some e)])
  end.

Definition logger_debug (msg : string) : Py unit := fun w => (Ok tt, w, [EvLog DEBUG msg]).
Definition logger_warning (msg : string) : Py unit := fun w => (Ok tt, w, [EvLog WARNING msg]).

(** The outcome of the body of a [try]: a tidy trace, ending with the
    failed operation when the body raised. *)
Definition guarded {A} (P : op -> bool) (out : result A * World * list event) : Prop :=
  match out with
  | (Ok _, _, t) => tidy P t
  | (Raise e, _, t) =>
      exists t0 o, t = t0 ++ [EvCall o (Some e)] /\ P o = true /\ tidy P t0
  end.

End Monad.

Arguments World {R} W.
Arguments Py {R} W A.
Arguments call {R} W A.
Arguments with_objs {R W} w o.
Arguments with_g_inst {R W} w g.

Notation "'let*' x ':=' c1 'in' c2" := (bind c1 (fun x => c2))
  (at level 10, x name, c1 at level 100, c2 at level 200).
Notation "c1 >> c2" := (bind c1 (fun _ => c2))
  (at level 100, c2 at level 200, right associativity).

(** ** The class *)

Section Randomizer.

Context {R : RandomLib}.
Context {W : Type}.
(** Values of the keyword options. *)
Context {V : Type}.

(** *** Collaborators *)

Record Sensor := { sensor_update : Z -> call W unit }.

(** A dict of sensors is a mutable object: [d w] is its items, in
    insertion order (the order of [values()]), when the process is in the
    state [w]. *)
Definition sensor_dict : Type := World W -> list (string * Sensor).

(** What [getattr(scene, "sensors", {})] finds: no attribute, so that the
    default is taken; an object that is no dict and has no [values], of
    which [None] is one ([type_name] is the name of its type); or a dict. *)
Inductive sensors_attr :=
| NoAttribute
| NotADict (type_name : string)
| ADict (d : sensor_dict).

(** [scene_sensors scene w] is the attribute when the process is in the
    state [w]: it is read anew at every pass. *)
Record Scene := {
  scene_update : Z -> call W unit;
  scene_sensors : World W -> sensors_attr
}.

Record Sim := {
  has_gui : call W bool;
  has_rtx_sensors : call W bool;
  render : call W unit
}.

(** A field is [None] when [getattr(handler, .., None)] gives [None]. *)
Record Handler := {
  scene : option Scene;
  sim : option Sim
}.

(** The object [get_instance()] returns: [instance_attr name] is the
    attribute when it is present and callable. *)
Record MatInstance := { instance_attr : string -> option (call W unit) }.

(** The module [omni.kit.material.library]: each field is the attribute
    when it is present and callable. *)
Record MatLib := {
  wait_for_pending_refreshes : option (call W unit);
  get_instance : option (call W MatInstance)
}.

Record AsyncEngine := { wait_for_tasks : call W unit }.

(** What the two [import] statements of the module do in this process. *)
Record Imports := {
  import_material_library : call W MatLib;
  import_get_async_engine : call W (call W AsyncEngine)
}.

(** *** The instance *)

Record BaseRandomizerType := {
  handler : option Handler;
  randomizer_options : gmap string V;
  _seed : option Z;
  _rng : option ref
}.

(** [random.getrandbits(k)], on the hidden instance of the module. *)
Definition random_getrandbits (k : Z) : Py W Z := fun w =>
  let '(v, g) := getrandbits k (g_inst w) in (Ok v, with_g_inst w g, []).

(** [random.Random(a)]: a new object, distinct from all earlier ones. *)
Definition random_Random (a : Z) : Py W ref := fun w =>
  (Ok (length (objs w)), with_objs w (objs w ++ [Random a]), []).

(** [r.getrandbits(k)] on the object behind [r], which it advances. *)
Definition Random_getrandbits (r : ref) (k : Z) : Py W Z := fun w =>
  match objs w !! r with
  | Some g =>
      let '(v, g') := getrandbits k g in (Ok v, with_objs w (<[r:=g']> (objs w)), [])
  | None => (Raise (Exn OtherException "ReferenceError"), w, [])
  end.

(** A caller that holds the generator [r] and draws [getrandbits(k)] from
    it for each [k] of [ks]. *)
Fixpoint draws (r : ref) (ks : list Z) : Py W (list Z) :=
  match ks with
  | [] => ret []
  | k :: ks' =>
      let* v := Random_getrandbits r k in
      let* vs := draws r ks' in
      ret (v :: vs)
  end.

Definition with_seed (self : BaseRandomizerType) (s : option Z) : BaseRandomizerType :=
  {| handler := handler self; randomizer_options := randomizer_options self;
     _seed := s; _rng := _rng self |}.

Definition with_rng (self : BaseRandomizerType) (r : option ref) : BaseRandomizerType :=
  {| handler := handler self; randomizer_options := randomizer_options self;
     _seed := _seed self; _rng := r |}.

(** [int(seed)] is the identity on an [int]. *)
Definition set_seed (self : BaseRandomizerType) (seed : option Z) : Py W BaseRandomizerType :=
  let* seed := match seed with
               | None => random_getrandbits 64
               | Some s => ret s
               end in
  let self := with_seed self (Some seed) in
  let* r := random_Random seed in
  ret (with_rng self (Some r)).

Definition __init__ (seed : option Z) (kwargs : gmap string V) : Py W BaseRandomizerType :=
  let self := {| handler := None; randomizer_options := kwargs;
                 _seed := None; _rng := None |} in
  match seed with
  | Some s => set_seed self (Some s)
  | None => ret self
  end.

Definition seed (self : BaseRandomizerType) : option Z := _seed self.

(** The property [rng]: the value returned, and the instance afterwards. *)
Definition rng (self : BaseRandomizerType) : Py W (option ref * BaseRandomizerType) :=
  let* self := match _rng self with
               | None => set_seed self (_seed self)
               | Some _ => ret self
               end in
  ret (_rng self, self).

(** A subclass drawing [self.rng.getrandbits(k)] for each [k] of [ks]: the
    property is read anew for every draw. *)
Fixpoint rng_draws (self : BaseRandomizerType) (ks : list Z) : Py W (list Z * BaseRandomizerType) :=
  match ks with
  | [] => ret ([], self)
  | k :: ks' =>
      let* p := rng self in
      match fst p with
      | Some r =>
          let* v := Random_getrandbits r k in
          let* q := rng_draws (snd p) ks' in
          ret (v :: fst q, snd q)
      | None => raise (Exn OtherException "AttributeError")
      end
  end.

Definition bind_handler (self : BaseRandomizerType) (h : option Handler) : BaseRandomizerType :=
  {| handler := h; randomizer_options := randomizer_options self;
     _seed := _seed self; _rng := _rng self |}.

Definition __call__ (self : BaseRandomizerType) : Py W unit := ret tt.

(** *** Clients of the seeded generator *)

(** The state of a generator after the draws [ks]. *)
Fixpoint advance (g : mt_state) (ks : list Z) : mt_state :=
  match ks with
  | [] => g
  | k :: ks' => advance (snd (getrandbits k g)) ks'
  end.

(** The seed [set_seed] resolves its argument to: the argument, or 64 bits
    of the module-level generator. *)
Definition resolved_seed (seed : option Z) (w : World W) : Z :=
  match seed with
  | Some s => s
  | None => fst (getrandbits 64 (g_inst w))
  end.

(** The world once the seed is resolved. *)
Definition after_resolve (seed : option Z) (w : World W) : World W :=
  match seed with
  | Some _ => w
  | None => with_g_inst w (snd (getrandbits 64 (g_inst w)))
  end.

(** Construct a randomizer, seed it with [s], draw [ks]. *)
Definition seeded_run (seed0 : option Z) (kwargs : gmap string V) (s : Z) (ks : list Z)
    : Py W (list Z) :=
  let* a := __init__ seed0 kwargs in
  let* a := set_seed a (Some s) in
  let* q := rng_draws a ks in
  ret (fst q).

(** Two randomizers in one process, both seeded with [s]; [a] draws [ks1],
    then [b] draws [ks2], then [a] draws [ks1'].  The result is what [a]
    drew in all and what [b] drew. *)
Definition seeded_pair (seed1 seed2 : option Z) (kw1 kw2 : gmap string V) (s : Z)
    (ks1 ks2 ks1' : list Z) : Py W (list Z * list Z) :=
  let* a := __init__ seed1 kw1 in
  let* b := __init__ seed2 kw2 in
  let* a := set_seed a (Some s) in
  let* b := set_seed b (Some s) in
  let* qa := rng_draws a ks1 in
  let* qb := rng_draws b ks2 in
  let* qa' := rng_draws (snd qa) ks1' in
  ret (fst qa ++ fst qa', fst qb).

(** Construct, draw [ks0], reseed with [s], draw [ks]: the draws made
    before and after the reseeding. *)
Definition reseed_run (seed0 : option Z) (kwargs : gmap string V) (ks0 : list Z)
    (s : Z) (ks : list Z) : Py W (list Z * list Z) :=
  let* a := __init__ seed0 kwargs in
  let* q0 := rng_draws a ks0 in
  let* a := set_seed (snd q0) (Some s) in
  let* q := rng_draws a ks in
  ret (fst q0, fst q).

(** The invariant of the instance: a generator exists only with a seed. *)
Definition seed_inv (self : BaseRandomizerType) : bool :=
  match _rng self, _seed self with
  | Some _, None => false
  | _, _ => true
  end.

(** The generator the instance holds is an allocated object. *)
Definition rng_valid (self : BaseRandomizerType) (w : World W) : Prop :=
  forall r : ref, _rng self = Some r -> is_Some (objs w !! r).

(** *** Synchronization helpers *)

Variable sys : Imports.

(** The loop over the candidate method names of the instance; the result
    is [waited].  The first callable one is called and ends the loop. *)
Fixpoint probe_wait_methods (instance : MatInstance) (names : list string) : Py W bool :=
  match names with
  | [] => ret false
  | attr_name :: names' =>
      match instance_attr instance attr_name with
      | Some wait_method => invoke (InstanceWait attr_name) wait_method >> ret true
      | None => probe_wait_methods instance names'
      end
  end.

Definition wait_method_names : list string :=
  ["wait_for_pending_refreshes"; "wait_for_pending_compiles";
   "wait_for_pending_compile"; "wait_for_pending_tasks"]%string.

Definition _wait_for_material_library (self : BaseRandomizerType) : Py W unit :=
  try_except
    (let* matlib := invoke ImportMaterialLibrary (import_material_library sys) in
     let* waited :=
       match wait_for_pending_refreshes matlib with
       | Some wait_fn => invoke MatlibWaitFn wait_fn >> ret true
       | None =>
           match get_instance matlib with
           | Some get_instance =>
               let* instance := invoke MatlibGetInstance get_instance in
               probe_wait_methods instance wait_method_names
           | None => ret false
           end
       end in
     if waited : bool then ret tt
     else logger_debug "Material library exposes no pending-refresh wait API; continuing")
    (fun err =>
       match exn_class_of err with
       | ImportError => logger_debug "Material library not available; skipping wait"
       | OtherException =>
           logger_warning ("Failed to wait for material refreshes: " +:+ exn_str err)
       end).

(** The body of the loop over the sensors: one update in its own [try]. *)
Definition update_sensor (name : string) (sensor : Sensor) : Py W unit :=
  try_except
    (invoke (SensorUpdate name 0) (sensor_update sensor 0))
    (fun err => logger_debug ("Sensor update during settle failed: " +:+ exn_str err)).

(** [for sensor in sensors.values()] on the dict [d], which had [size]
    items when the iteration began and of which [left] are still to come.
    The iteration is outside every [try].  As CPython's iterator over the
    values of a dict does, each step first checks that the dict still has
    [size] items and raises [RuntimeError] when it has not; otherwise it
    gives the value at the position reached, of the dict as it is now. *)
Fixpoint update_sensors (d : sensor_dict) (size left : nat) : Py W unit :=
  fun w =>
    if (length (d w) =? size)%nat then
      match left with
      | O => ret tt w
      | S left' =>
          match d w !! (size - left)%nat with
          | Some (name, sensor) =>
              (update_sensor name sensor >> update_sensors d size left') w
          | None => ret tt w
          end
      end
    else raise (Exn OtherException "dictionary changed size during iteration") w.

(** [sensors = getattr(scene, "sensors", {})] and the loop over
    [sensors.values()]: nothing to do with the default; [AttributeError]
    from an object without [values]. *)
Definition update_scene_sensors (scene : Scene) : Py W unit :=
  fun w =>
    match scene_sensors scene w with
    | NoAttribute => ret tt w
    | NotADict type_name =>
        raise (Exn OtherException
                 ("'" +:+ type_name +:+ "' object has no attribute 'values'")) w
    | ADict d => update_sensors d (length (d w)) (length (d w)) w
    end.

(** The first [try] of the loop body; [false] when its handler ran [break]. *)
Definition try_scene_update (scene : Scene) : Py W bool :=
  try_except
    (invoke (SceneUpdate 0) (scene_update scene 0) >> ret true)
    (fun err =>
       logger_debug ("Scene update during settle failed: " +:+ exn_str err) >>
       ret false).

(** [if sim is not None: try: ...]; [or] evaluates its right operand only
    when the left one is false. *)
Definition try_render (sim : option Sim) : Py W unit :=
  match sim with
  | Some sim =>
      try_except
        (let* gui := invoke SimHasGui (has_gui sim) in
         let* cond := if gui : bool then ret true
                      else invoke SimHasRtxSensors (has_rtx_sensors sim) in
         if cond : bool then invoke SimRender (render sim) else ret tt)
        (fun err => logger_debug ("Sim render during settle failed: " +:+ exn_str err))
  | None => ret tt
  end.

(** [for _ in range(passes)] with [passes] iterations left. *)
Fixpoint settle_loop (scene : Scene) (sim : option Sim) (passes : nat) : Py W unit :=
  match passes with
  | O => ret tt
  | S passes' =>
      let* go_on := try_scene_update scene in
      if go_on : bool then
        try_render sim >>
        update_scene_sensors scene >>
        settle_loop scene sim passes'
      else ret tt
  end.

Definition _settle_renderer_frames (self : BaseRandomizerType) (settle_passes : Z) : Py W unit :=
  match handler self with
  | None => ret tt
  | Some handler =>
      match scene handler with
      | None => ret tt
      | Some scene =>
          let sim := sim handler in
          let passes := Z.max 0 settle_passes in
          settle_loop scene sim (Z.to_nat passes)
      end
  end.

Definition _wait_for_async_engine (self : BaseRandomizerType) : Py W unit :=
  try_except
    (let* get_async_engine := invoke ImportAsyncEngine (import_get_async_engine sys) in
     let* engine := invoke GetAsyncEngine get_async_engine in
     invoke WaitForTasks (wait_for_tasks engine))
    (fun err =>
       match exn_class_of err with
       | ImportError => logger_debug "Omniverse async engine not available; skipping wait_for_tasks"
       | OtherException => logger_warning ("Failed to wait for async tasks: " +:+ exn_str err)
       end).

Definition _sync_visual_updates (self : BaseRandomizerType)
    (wait_for_materials : bool) (settle_passes : Z) : Py W unit :=
  (if wait_for_materials then _wait_for_material_library self else ret tt) >>
  _settle_renderer_frames self settle_passes >>
  _wait_for_async_engine self.

(** The keys of sensors, each with the time step its update is given. *)
Definition sensor_keys (sensors : list (string * Sensor)) : list (string * Z) :=
  map (fun p => (fst p, 0)) sensors.

(** The sensors of the scene are [sensors] and stay so: the attribute is
    absent and there are none, or it is a dict whose items are [sensors]
    in every state of the process. *)
Definition steady (scene : Scene) (sensors : list (string * Sensor)) : Prop :=
  forall w,
    match scene_sensors scene w with
    | NoAttribute => sensors = []
    | NotADict _ => False
    | ADict d => forall w', d w' = sensors
    end.

(** A handler whose scene, when it has one, has steady sensors; an
    instance bound to none or to such a handler. *)
Definition proper_handler (h : Handler) : Prop :=
  match scene h with
  | Some scene => exists sensors, steady scene sensors
  | None => True
  end.

Definition proper (self : BaseRandomizerType) : Prop :=
  match handler self with
  | Some h => proper_handler h
  | None => True
  end.

(** *** The operations of an instance *)

Inductive method :=
| Init (seed : option Z) (kwargs : gmap string V)
| Set_seed (seed : option Z)
| Get_seed
| Get_rng
| Bind_handler (h : option Handler)
| Call
| Sync_visual_updates (wait_for_materials : bool) (settle_passes : Z)
| Wait_for_material_library
| Settle_renderer_frames (settle_passes : Z)
| Wait_for_async_engine.

(** One operation on [self]; the result is the instance afterwards.
    [__init__] assigns all four attributes, whatever they were. *)
Definition run_method (m : method) (self : BaseRandomizerType) : Py W BaseRandomizerType :=
  match m with
  | Init seed kwargs => __init__ seed kwargs
  | Set_seed seed => set_seed self seed
  | Get_seed => let _ := seed self in ret self
  | Get_rng => let* p := rng self in ret (snd p)
  | Bind_handler h => ret (bind_handler self h)
  | Call => __call__ self >> ret self
  | Sync_visual_updates wait_for_materials settle_passes =>
      _sync_visual_updates self wait_for_materials settle_passes >> ret self
  | Wait_for_material_library => _wait_for_material_library self >> ret self
  | Settle_renderer_frames settle_passes =>
      _settle_renderer_frames self settle_passes >> ret self
  | Wait_for_async_engine => _wait_for_async_engine self >> ret self
  end.

(** The methods that run the settle loop. *)
Definition is_barrier (m : method) : bool :=
  match m with
  | Sync_visual_updates _ _ | Settle_renderer_frames _ => true
  | _ => false
  end.

(** A method that binds no handler but a proper one. *)
Definition tame (m : method) : Prop :=
  match m with
  | Bind_handler (Some h) => proper_handler h
  | _ => True
  end.

Fixpoint run_methods (ms : list method) (self : BaseRandomizerType) : Py W BaseRandomizerType :=
  match ms with
  | [] => ret self
  | m :: ms' => let* self := run_method m self in run_methods ms' self
  end.

End Randomizer.

Arguments BaseRandomizerType {R} W V.
Arguments Handler {R} W.
Arguments Scene {R} W.
Arguments Sim {R} W.
Arguments Sensor {R} W.
Arguments sensor_dict {R} W.
Arguments sensors_attr {R} W.
Arguments MatLib {R} W.
Arguments MatInstance {R} W.
Arguments AsyncEngine {R} W.
Arguments Imports {R} W.
Arguments method {R} W V.

(** ** Further observers of a trace, further clients *)

(** The operations attempted, in order, whatever their outcome. *)
Definition ops (t : list event) : list op := map fst (calls t).

(** The calls that wait on the material library. *)
Definition is_wait_op (o : op) : bool :=
  match o with MatlibWaitFn | InstanceWait _ => true | _ => false end.

(** No operation of [t] raised. *)
Definition raised_nothing (t : list event) : bool :=
  forallb (fun c => match snd c with None => true | Some _ => false end) (calls t).

(** Operations that returned, as events. *)
Definition succeeded (os : list op) : list event := map (fun o => EvCall o None) os.

(** No record of [t] is at warning level. *)
Definition calm (t : list event) : bool :=
  forallb (fun ev => match ev with EvLog WARNING _ => false | _ => true end) t.

Definition is_import_error (e : exn) : bool :=
  match exn_class_of e with ImportError => true | OtherException => false end.

(** The records the handlers of the module write. *)
Definition no_api_record : event :=
  EvLog DEBUG "Material library exposes no pending-refresh wait API; continuing".

Definition material_failure_record (e : exn) : event :=
  match exn_class_of e with
  | ImportError => EvLog DEBUG "Material library not available; skipping wait"
  | OtherException => EvLog WARNING ("Failed to wait for material refreshes: " +:+ exn_str e)
  end.

Definition async_failure_record (e : exn) : event :=
  match exn_class_of e with
  | ImportError => EvLog DEBUG "Omniverse async engine not available; skipping wait_for_tasks"
  | OtherException => EvLog WARNING ("Failed to wait for async tasks: " +:+ exn_str e)
  end.

Definition scene_failure_record (e : exn) : event :=
  EvLog DEBUG ("Scene update during settle failed: " +:+ exn_str e).

Definition sim_failure_record (e : exn) : event :=
  EvLog DEBUG ("Sim render during settle failed: " +:+ exn_str e).

(** The text of the warning for [e] raised by [o]. *)
Definition warning_text (o : op) (e : exn) : string :=
  (if is_material_op o then "Failed to wait for material refreshes: "
   else "Failed to wait for async tasks: ") +:+ exn_str e.

(** Every warning of [t] comes right after an operation of one of the two
    waits that raised something other than an [ImportError], and carries
    the text of that exception; [prev] is the event before [t]. *)
Fixpoint warnings_after (prev : option event) (t : list event) : bool :=
  match t with
  | [] => true
  | ev :: t' =>
      match ev with
      | EvLog WARNING msg =>
          match prev with
          | Some (EvCall o (Some e)) =>
              (is_material_op o || is_async_op o) && negb (is_import_error e) &&
              String.eqb msg (warning_text o e)
          | _ => false
          end
      | _ => true
      end && warnings_after (Some ev) t'
  end.

Definition warnings_justified (t : list event) : bool := warnings_after None t.

(** A computation returned rather than raised. *)
Definition returned {A} (r : result A) : bool :=
  match r with Ok _ => true | Raise _ => false end.

(** The scene updates a settle loop of [n] passes can attempt.  When the
    loop returned: all [n], which returned; or fewer, of which the last
    raised and the others returned.  When the loop raised: at least one
    and at most [n], which all returned. *)
Definition scene_shape (n : nat) (loop_returned : bool) (us : list (Z * option exn)) : Prop :=
  if loop_returned then
    us = replicate n (0, None) \/
    exists (k : nat) e, (k < n)%nat /\ us = replicate k (0, None) ++ [(0, Some e)]
  else exists k : nat, (0 < k <= n)%nat /\ us = replicate k (0, None).

(** The three operations of the async flush, in the order of the code. *)
Definition async_ops : list op := [ImportAsyncEngine; GetAsyncEngine; WaitForTasks].

(** The traces a settle loop of [n] passes can leave over sensors with
    keys [keys]: nothing when no pass is left; a scene update that raised,
    its record, and nothing more; or a scene update that returned, then
    operations of the sim, then the update of every sensor, then the
    trace of the passes left. *)
Inductive settle_trace (keys : list (string * Z)) : nat -> list event -> Prop :=
| settle_done : settle_trace keys O []
| settle_abort n e :
    settle_trace keys (S n) [EvCall (SceneUpdate 0) (Some e); scene_failure_record e]
| settle_pass n tsim tsens rest :
    only is_sim_op tsim = true ->
    only is_sensor_op tsens = true ->
    sensor_updates tsens = keys ->
    settle_trace keys n rest ->
    settle_trace keys (S n) (EvCall (SceneUpdate 0) None :: tsim ++ tsens ++ rest).

(** The traces the material wait can leave. *)
Inductive material_trace : list event -> Prop :=
| mt_import_failed e :
    material_trace [EvCall ImportMaterialLibrary (Some e); material_failure_record e]
| mt_module_wait :
    material_trace (succeeded [ImportMaterialLibrary; MatlibWaitFn])
| mt_module_wait_failed e :
    material_trace (succeeded [ImportMaterialLibrary] ++
                    [EvCall MatlibWaitFn (Some e); material_failure_record e])
| mt_nothing :
    material_trace (succeeded [ImportMaterialLibrary] ++ [no_api_record])
| mt_get_instance_failed e :
    material_trace (succeeded [ImportMaterialLibrary] ++
                    [EvCall MatlibGetInstance (Some e); material_failure_record e])
| mt_no_method :
    material_trace (succeeded [ImportMaterialLibrary; MatlibGetInstance] ++ [no_api_record])
| mt_instance_wait name :
    In name wait_method_names ->
    material_trace (succeeded [ImportMaterialLibrary; MatlibGetInstance; InstanceWait name])
| mt_instance_wait_failed name e :
    In name wait_method_names ->
    material_trace (succeeded [ImportMaterialLibrary; MatlibGetInstance] ++
                    [EvCall (InstanceWait name) (Some e); material_failure_record e]).

Section Clients.

Context {R : RandomLib} {W V : Type}.

(** [callable(getattr(instance, name, None))]. *)
Definition callable (instance : MatInstance W) (name : string) : bool :=
  match instance_attr instance name with Some _ => true | None => false end.

(** The first of the candidate names, in the order of the code, that is a
    callable attribute of the instance. *)
Definition first_callable (instance : MatInstance W) : option string :=
  find (callable instance) wait_method_names.

(** Construct a randomizer and draw [ks] through [self.rng]. *)
Definition constructed_run (seed0 : option Z) (kwargs : gmap string V) (ks : list Z)
    : Py W (list Z * BaseRandomizerType W V) :=
  let* a := __init__ seed0 kwargs in
  rng_draws a ks.

(** A caller keeps the generator of a randomizer seeded with [s0], draws
    [ks0] from it, the randomizer is reseeded with [s1] and draws [ks],
    then the caller draws [ks1] from the generator it kept.  The result is
    what the caller drew in all and what the randomizer drew. *)
Definition stale_handle_run (s0 : Z) (kwargs : gmap string V) (ks0 : list Z)
    (s1 : Z) (ks ks1 : list Z) : Py W (list Z * list Z) :=
  let* a := __init__ (Some s0) kwargs in
  let* p := rng a in
  match fst p with
  | Some r0 =>
      let* v0 := draws r0 ks0 in
      let* a := set_seed (snd p) (Some s1) in
      let* q := rng_draws a ks in
      let* v1 := draws r0 ks1 in
      ret (v0 ++ v1, fst q)
  | None => raise (Exn OtherException "AttributeError")
  end.

(** The two exceptions the loop over the sensors of [sc] lets out, as it
    is outside every [try]: the [RuntimeError] of an iteration over a dict
    that was resized meanwhile, and the [AttributeError] of an attribute
    [sensors] that has no [values]. *)
Definition escapes (sc : Scene W) (e : exn) : Prop :=
  e = Exn OtherException "dictionary changed size during iteration" \/
  exists type_name w,
    scene_sensors sc w = NotADict type_name /\
    e = Exn OtherException ("'" +:+ type_name +:+ "' object has no attribute 'values'").

(** [f] leaves the count [c] of the process as it was. *)
Definition preserves {A} (c : World W -> nat) (f : call W A) : Prop :=
  forall w, c (snd (f w)) = c w.

(** [c] counts the scene updates of [sc] that returned: such a call adds
    one to it, and a call that raises leaves it. *)
Definition counts_updates (c : World W -> nat) (sc : Scene W) : Prop :=
  forall dt w,
    c (snd (scene_update sc dt w)) =
      match fst (scene_update sc dt w) with
      | Ok _ => S (c w)
      | Raise _ => c w
      end.

(** The sim and the sensors leave the count alone. *)
Definition quiet_sim (c : World W -> nat) (sm : option (Sim W)) : Prop :=
  match sm with
  | Some s => preserves c (has_gui s) /\ preserves c (has_rtx_sensors s) /\ preserves c (render s)
  | None => True
  end.

Definition quiet_sensors (c : World W -> nat) (sensors : list (string * Sensor W)) : Prop :=
  Forall (fun p => preserves c (sensor_update (snd p) 0)) sensors.

End Clients.

(** ** A small instance to run the model on *)

Module Demo.

(** A 64-bit linear congruential generator standing in for CPython's
    Mersenne Twister; like CPython, an integer seed is used through its
    absolute value. *)
Definition lcg_next (g : Z) : Z := (g * 6364136223846793005 + 1442695040888963407) mod 2 ^ 64.

#[export] Instance lcg : RandomLib := {|
  mt_state := Z;
  Random := fun a => Z.abs a mod 2 ^ 64;
  getrandbits := fun k g => let g' := lcg_next g in (Z.shiftr g' (64 - k), g')
|}.

(** The host state of the examples: how many scene updates were made. *)
Definition noop : call nat unit := fun w => (Ok tt, w).

Definition tick : call nat unit := fun w =>
  (Ok tt, {| g_inst := g_inst w; objs := objs w; host := S (host w) |}).

Definition boom {A} (msg : string) : call nat A := fun w => (Raise (Exn OtherException msg), w).

Definition no_module {A} (name : string) : call nat A := fun w =>
  (Raise (Exn ImportError ("No module named '" +:+ name +:+ "'")), w).

Definition answer {A} (a : A) : call nat A := fun w => (Ok a, w).

(** A scene update that raises at its [k]-th call, counted from 1. *)
Definition update_until (k : nat) : call nat unit := fun w =>
  if (S (host w) =? k)%nat then boom "physics stepped on a rake" w else tick w.

Definition ok_sensor : Sensor nat := {| sensor_update := fun _ => noop |}.
Definition failing_sensor : Sensor nat := {| sensor_update := fun _ => boom "lens cap on" |}.

Definition cams : list (string * Sensor nat) :=
  [("cam1", ok_sensor); ("cam2", failing_sensor); ("cam3", ok_sensor)]%string.

Definition gui_sim : Sim nat :=
  {| has_gui := answer true; has_rtx_sensors := boom "unused"; render := noop |}.

Definition w0 : World nat := {| g_inst := 7; objs := []; host := O |}.

Definition blank : BaseRandomizerType nat unit :=
  {| handler := None; randomizer_options := ∅; _seed := None; _rng := None |}.

(** A scene whose update raises at the [k]-th call, and a handler with it. *)
Definition set_of (k : nat) : Scene nat :=
  {| scene_update := fun _ => update_until k;
     scene_sensors := fun _ => ADict (fun _ => cams) |}.

Definition stage (k : nat) : Handler nat :=
  {| scene := Some (set_of k); sim := Some gui_sim |}.

(** A randomizer bound to [stage k]. *)
Definition on_stage (k : nat) : BaseRandomizerType nat unit :=
  bind_handler blank (Some (stage k)).

(** A deployment without Omniverse Kit, and one with it. *)
Definition headless : Imports nat :=
  {| import_material_library := no_module "omni";
     import_get_async_engine := no_module "omni" |}.

Definition kit : Imports nat :=
  {| import_material_library :=
       answer {| wait_for_pending_refreshes := None;
                 get_instance := Some (answer {| instance_attr := fun name =>
                   if String.eqb name "wait_for_pending_compile" then Some noop else None |}) |};
     import_get_async_engine := answer (answer {| wait_for_tasks := boom "queue stuck" |}) |}.

(** A scene whose attribute [sensors] is [None], a handler with it and a
    randomizer bound to that handler. *)
Definition bare_set : Scene nat :=
  {| scene_update := fun _ => tick; scene_sensors := fun _ => NotADict "NoneType" |}.

Definition bare_stage : Handler nat := {| scene := Some bare_set; sim := Some gui_sim |}.

Definition on_bare_stage : BaseRandomizerType nat unit :=
  bind_handler blank (Some bare_stage).

(** A scene whose first camera registers a second one when it is updated
    for the first time: the dict has one item as long as the host state
    is 0, two afterwards. *)
Definition spawning_sensor : Sensor nat :=
  {| sensor_update := fun _ w => if (host w =? 0)%nat then tick w else noop w |}.

Definition growing_cams : sensor_dict nat := fun w =>
  (("cam1", spawning_sensor) :: if (host w =? 0)%nat then [] else [("cam2", ok_sensor)])%string.

Definition growing_set : Scene nat :=
  {| scene_update := fun _ => noop; scene_sensors := fun _ => ADict growing_cams |}.

Definition on_growing_stage : BaseRandomizerType nat unit :=
  bind_handler blank (Some {| scene := Some growing_set; sim := None |}).

End Demo.

(** Further deployments for the examples. *)
Module Studio.

Import Demo.

(** A material library with the module-level wait function, whose
    singleton accessor would raise if it were called. *)
Definition direct_library : MatLib nat :=
  {| wait_for_pending_refreshes := Some tick;
     get_instance := Some (boom "singleton not ready") |}.

Definition direct : Imports nat :=
  {| import_material_library := answer direct_library;
     import_get_async_engine := answer (answer {| wait_for_tasks := noop |}) |}.

(** An instance with two of the candidate methods. *)
Definition two_methods : MatInstance nat :=
  {| instance_attr := fun name =>
       if String.eqb name "wait_for_pending_tasks" then Some (boom "tasks stuck")
       else if String.eqb name "wait_for_pending_compiles" then Some tick
       else None |}.

Definition probing_library : MatLib nat :=
  {| wait_for_pending_refreshes := None; get_instance := Some (answer two_methods) |}.

Definition probing : Imports nat :=
  {| import_material_library := answer probing_library;
     import_get_async_engine := answer (answer {| wait_for_tasks := noop |}) |}.

(** A handler with a sim and no scene, and a randomizer bound to it. *)
Definition empty_stage : Handler nat := {| scene := None; sim := Some gui_sim |}.

Definition on_empty_stage : BaseRandomizerType nat unit :=
  bind_handler blank (Some empty_stage).

End Studio.

(** ** The seeded generator *)

Section SeedFacts.

Context {R : RandomLib} {W V : Type}.
Implicit Types (self : BaseRandomizerType W V) (w : World W) (g : mt_state).
Lemma set_seed_eq self seed w :
  set_seed self seed w =
    (Ok (with_rng (with_seed self (Some (resolved_seed seed w))) (Some (length (objs w)))),
     with_objs (after_resolve seed w) (objs w ++ [Random (resolved_seed seed w)]),
     []).
Proof.
  destruct seed as [s|]; [reflexivity|].
  unfold set_seed, bind, random_getrandbits; simpl.
  destruct (getrandbits 64 (g_inst w)) as [v g]; reflexivity.
Qed.

Lemma length_stream g ks : length (stream g ks) = length ks.
Proof.
  revert g; induction ks as [|k ks IH]; intros g; simpl; [reflexivity|].
  destruct (getrandbits k g) as [v g']; simpl; now rewrite IH.
Qed.

Lemma with_objs_id w : with_objs w (objs w) = w.
Proof. now destruct w. Qed.

Lemma with_objs_twice w o o' : with_objs (with_objs w o) o' = with_objs w o'.
Proof. reflexivity. Qed.

Lemma draws_eq (r : ref) ks : forall w g,
  objs w !! r = Some g ->
  draws r ks w = (Ok (stream g ks), with_objs w (<[r:=advance g ks]> (objs w)), []).
Proof.
  induction ks as [|k ks IH]; intros w g Hr; simpl.
  - unfold ret. rewrite list_insert_id by assumption. now rewrite with_objs_id.
  - unfold bind, Random_getrandbits. rewrite Hr.
    destruct (getrandbits k g) as [v g'] eqn:Hd; simpl.
    assert (Hlt : (r < length (objs w))%nat) by (eapply lookup_lt_Some; eauto).
    rewrite (IH _ g') by (simpl; now apply list_lookup_insert_eq).
    simpl. now rewrite list_insert_insert_eq.
Qed.

(** Reading [rng] when a generator exists changes nothing. *)
Lemma rng_present self (r : ref) w :
  _rng self = Some r -> rng self w = (Ok (Some r, self), w, []).
Proof. intros Hr. unfold rng, bind, ret. rewrite Hr; simpl. now rewrite Hr. Qed.

Lemma rng_draws_eq self (r : ref) ks : forall w g,
  _rng self = Some r -> objs w !! r = Some g ->
  rng_draws self ks w =
    (Ok (stream g ks, self), with_objs w (<[r:=advance g ks]> (objs w)), []).
Proof.
  induction ks as [|k ks IH]; intros w g Hself Hr; simpl.
  - unfold ret. rewrite list_insert_id by assumption. now rewrite with_objs_id.
  - unfold bind at 1. rewrite (rng_present _ r) by assumption. simpl.
    unfold bind at 1, Random_getrandbits. rewrite Hr.
    destruct (getrandbits k g) as [v g'] eqn:Hd; simpl.
    assert (Hlt : (r < length (objs w))%nat) by (eapply lookup_lt_Some; eauto).
    unfold bind at 1.
    rewrite (IH _ g') by (simpl; auto using list_lookup_insert_eq).
    simpl. now rewrite list_insert_insert_eq.
Qed.

Lemma stream_app g ks1 ks2 :
  stream g (ks1 ++ ks2) = stream g ks1 ++ stream (advance g ks1) ks2.
Proof.
  revert g; induction ks1 as [|k ks1 IH]; intros g; simpl; [reflexivity|].
  destruct (getrandbits k g) as [v g']; simpl. now rewrite IH.
Qed.

(** Sequencing after a computation that returned. *)
Lemma bind_ok {A B} (m : Py W A) (k : A -> Py W B) w a w1 t1 :
  m w = (Ok a, w1, t1) ->
  bind m k w = (let '(r, w2, t2) := k a w1 in (r, w2, t1 ++ t2)).
Proof. intros H. unfold bind. now rewrite H. Qed.

Lemma init_returns (seed0 : option Z) (kw : gmap string V) w :
  exists a w', __init__ seed0 kw w = (Ok a, w', []) /\ seed_inv a = true.
Proof.
  destruct seed0 as [s|]; simpl.
  - rewrite set_seed_eq. do 2 eexists. split; reflexivity.
  - do 2 eexists. split; reflexivity.
Qed.

Lemma init_returns_valid (seed0 : option Z) (kw : gmap string V) w :
  exists a w', __init__ seed0 kw w = (Ok a, w', []) /\ rng_valid a w'.
Proof.
  destruct seed0 as [s|]; simpl.
  - rewrite set_seed_eq. do 2 eexists. split; [reflexivity|].
    intros r [= <-]. simpl. exists (Random s). apply list_lookup_middle. reflexivity.
  - do 2 eexists. split; [reflexivity|]. intros r [=].
Qed.

(** Seeding and drawing: whatever the instance and the world were. *)
Lemma set_seed_then_draws self (s : Z) ks w :
  (let* a := set_seed self (Some s) in rng_draws a ks) w =
    (Ok (stream (Random s) ks,
         with_rng (with_seed self (Some s)) (Some (length (objs w)))),
     with_objs w (objs w ++ [advance (Random s) ks]), []).
Proof.
  erewrite bind_ok by apply set_seed_eq.
  erewrite rng_draws_eq; [|reflexivity|]; simpl.
  2: { apply list_lookup_middle. reflexivity. }
  rewrite with_objs_twice.
  rewrite insert_app_r_alt, Nat.sub_diag by lia. reflexivity.
Qed.

(** Reading [rng] when no generator exists is [set_seed] on the stored seed. *)
Lemma rng_absent self w :
  _rng self = None ->
  rng self w =
    (Ok (Some (length (objs w)),
         with_rng (with_seed self (Some (resolved_seed (_seed self) w)))
                  (Some (length (objs w)))),
     with_objs (after_resolve (_seed self) w)
               (objs w ++ [Random (resolved_seed (_seed self) w)]),
     []).
Proof.
  intros Hr. unfold rng. rewrite Hr.
  erewrite bind_ok by apply set_seed_eq. reflexivity.
Qed.

Lemma rng_draws_returns self ks w :
  rng_valid self w ->
  exists vs self' w', rng_draws self ks w = (Ok (vs, self'), w', []).
Proof.
  intros Hv. destruct (_rng self) as [r|] eqn:Hr.
  - destruct (Hv r Hr) as [g Hg]. erewrite rng_draws_eq by eassumption. eauto.
  - destruct ks as [|k ks]; [simpl; unfold ret; eauto|].
    simpl. erewrite bind_ok by (apply rng_absent; exact Hr). simpl.
    set (s := resolved_seed (_seed self) w).
    set (self1 := with_rng _ _). set (w1 := with_objs _ _).
    assert (H1 : objs w1 !! length (objs w) = Some (Random s)).
    { subst w1; simpl. apply list_lookup_middle. reflexivity. }
    unfold bind at 1, Random_getrandbits. rewrite H1.
    destruct (getrandbits k (Random s)) as [v g'].
    erewrite bind_ok.
    2: { eapply (rng_draws_eq self1 (length (objs w)) ks _ g'); [reflexivity|].
         simpl. apply list_lookup_insert_eq. rewrite length_app; simpl; lia. }
    simpl. eauto.
Qed.

End SeedFacts.

Section SeedClaims.

Context {R : RandomLib} {W V : Type}.
Implicit Types (self : BaseRandomizerType W V) (w : World W) (kw : gmap string V).

(** C1. Two randomizers constructed independently (whatever their
    constructor arguments, in whatever state of the process) on which
    [set_seed(s)] was called draw the same values: for every list of
    requests [ks] each run returns [stream (Random s) ks], a function of
    [s] and the requests alone, as long as the requests.  The same holds
    when both live in one process and their draws are interleaved. *)
Theorem same_seed_same_draws (s : Z) (seed1 seed2 : option Z) kw1 kw2 w1 w2
    (ks ks1 ks1' : list Z) :
  fst (fst (seeded_run seed1 kw1 s ks w1)) = Ok (stream (Random s) ks) /\
  fst (fst (seeded_run seed2 kw2 s ks w2)) = Ok (stream (Random s) ks) /\
  length (stream (Random s) ks) = length ks /\
  fst (fst (seeded_pair seed1 seed2 kw1 kw2 s ks1 (ks1 ++ ks1') ks1' w1)) =
    Ok (stream (Random s) (ks1 ++ ks1'), stream (Random s) (ks1 ++ ks1')).
Proof.
  assert (Hrun : forall seed0 kw w,
            fst (fst (seeded_run seed0 kw s ks w)) = Ok (stream (Random s) ks)).
  { intros seed0 kw w. unfold seeded_run.
    destruct (init_returns seed0 kw w) as (a & w' & Ha & _).
    erewrite bind_ok by exact Ha.
    pose proof (set_seed_then_draws a s ks w') as Hd.
    unfold bind in Hd |- *.
    destruct (set_seed a (Some s) w') as [[[a'|e] w''] t]; [|discriminate].
    destruct (rng_draws a' ks w'') as [[[q|e] w3] t3]; [|discriminate].
    injection Hd as -> _ _. reflexivity. }
  split; [apply Hrun|]. split; [apply Hrun|]. split; [apply length_stream|].
  unfold seeded_pair.
  destruct (init_returns seed1 kw1 w1) as (a & wa & Ha & _).
  erewrite bind_ok by exact Ha.
  destruct (init_returns seed2 kw2 wa) as (b & wb & Hb & _).
  erewrite bind_ok by exact Hb.
  erewrite bind_ok by apply set_seed_eq.
  erewrite bind_ok by apply set_seed_eq.
  simpl.
  set (o := objs wb).
  erewrite bind_ok.
  2: { apply (rng_draws_eq _ (length o) ks1 _ (Random s)); [reflexivity|]. simpl.
       rewrite <- app_assoc. apply list_lookup_middle. reflexivity. }
  erewrite bind_ok.
  2: { apply (rng_draws_eq _ (length (o ++ [Random s])) (ks1 ++ ks1') _ (Random s));
         [reflexivity|]. simpl.
       rewrite list_lookup_insert_ne by (rewrite length_app; simpl; lia).
       apply list_lookup_middle. reflexivity. }
  erewrite bind_ok.
  2: { apply (rng_draws_eq _ (length o) ks1' _ (advance (Random s) ks1)); [reflexivity|]. simpl.
       rewrite list_lookup_insert_ne by (rewrite length_app; simpl; lia).
       apply list_lookup_insert_eq. rewrite !length_app. simpl. lia. }
  simpl. now rewrite stream_app.
Qed.

(** C4. On a randomizer that has no generator yet, reading [rng] is
    [set_seed] called with the stored seed; it returns a generator [r],
    the seed accessor then gives an integer (the stored seed when there was
    one, else 64 bits of the module-level generator), [r] is a generator
    seeded with it from which every draw succeeds, and reading [rng] again
    returns the same [r] and changes neither the instance nor the world:
    nothing is derived or allocated a second time. *)
Theorem rng_lazy_init self w :
  _rng self = None ->
  rng self w = (let* a := set_seed self (_seed self) in ret (_rng a, a)) w /\
  exists (r : ref) (s : Z) self' w',
    rng self w = (Ok (Some r, self'), w', []) /\
    s = resolved_seed (_seed self) w /\
    seed self' = Some s /\
    _rng self' = Some r /\
    objs w' !! r = Some (Random s) /\
    (forall ks, draws r ks w' =
                  (Ok (stream (Random s) ks),
                   with_objs w' (<[r:=advance (Random s) ks]> (objs w')), [])) /\
    rng self' w' = (Ok (Some r, self'), w', []).
Proof.
  intros Hr. split.
  - unfold rng. now rewrite Hr.
  - rewrite (rng_absent _ _ Hr).
    do 4 eexists. split; [reflexivity|]. split; [reflexivity|].
    assert (Hl : (objs w ++ [Random (resolved_seed (_seed self) w)]) !! length (objs w)
                 = Some (Random (resolved_seed (_seed self) w)))
      by (apply list_lookup_middle; reflexivity).
    repeat split; try reflexivity.
    + exact Hl.
    + intros ks. apply draws_eq. exact Hl.
Qed.

(** C5. [set_seed(s)] on an integer [s] returns, whatever the instance
    and the world: the seed accessor then gives [s] and the generator is
    an object that did not exist before, in the state [Random s], while
    every older generator is left as it was.  The draws that follow are
    [stream (Random s) ks]; in particular after construction and any draws
    [ks0], reseeding with [s] makes the later draws those of a fresh
    generator seeded with [s], whatever [ks0] and the first seed were. *)
Theorem set_seed_reseeds self (s : Z) w (ks : list Z) :
  (exists self' w' (r : ref),
     set_seed self (Some s) w = (Ok self', w', []) /\
     seed self' = Some s /\
     _rng self' = Some r /\
     objs w !! r = None /\
     objs w' !! r = Some (Random s) /\
     (forall r' : ref, r' <> r -> objs w' !! r' = objs w !! r') /\
     fst (fst (rng_draws self' ks w')) = Ok (stream (Random s) ks, self')) /\
  (forall (seed0 : option Z) kw (ks0 : list Z),
     exists vs0, fst (fst (reseed_run seed0 kw ks0 s ks w)) = Ok (vs0, stream (Random s) ks)).
Proof.
  split.
  - rewrite set_seed_eq. do 3 eexists. split; [reflexivity|]. simpl.
    assert (Hl : (objs w ++ [Random s]) !! length (objs w) = Some (Random s))
      by (apply list_lookup_middle; reflexivity).
    repeat split; try reflexivity.
    + apply lookup_ge_None. lia.
    + exact Hl.
    + intros r' Hne. destruct (decide (r' < length (objs w))%nat) as [Hlt|Hge].
      * now rewrite lookup_app_l.
      * rewrite !(proj2 (lookup_ge_None _ _)); [reflexivity|lia|].
        rewrite length_app; simpl; lia.
    + erewrite rng_draws_eq; [reflexivity|reflexivity|exact Hl].
  - intros seed0 kw ks0. unfold reseed_run.
    destruct (init_returns_valid seed0 kw w) as (a & wa & Ha & Hva).
    erewrite bind_ok by exact Ha.
    destruct (rng_draws_returns a ks0 wa Hva) as (vs0 & a1 & w1 & Hd).
    erewrite bind_ok by exact Hd.
    pose proof (set_seed_then_draws a1 s ks w1) as Hs.
    exists vs0. simpl. unfold bind in Hs |- *.
    destruct (set_seed a1 (Some s) w1) as [[[a2|e] w2] t2]; [|discriminate].
    destruct (rng_draws a2 ks w2) as [[[q|e] w3] t3]; [|discriminate].
    injection Hs as -> _ _. reflexivity.
Qed.

End SeedClaims.


(** ** The barrier *)

Section TraceFacts.

Implicit Types (t : list event) (P : op -> bool).

Lemma calls_app t1 t2 : calls (t1 ++ t2) = calls t1 ++ calls t2.
Proof. apply omap_app. Qed.

Lemma scene_updates_app t1 t2 :
  scene_updates (t1 ++ t2) = scene_updates t1 ++ scene_updates t2.
Proof. unfold scene_updates. now rewrite calls_app, omap_app. Qed.

Lemma sensor_updates_app t1 t2 :
  sensor_updates (t1 ++ t2) = sensor_updates t1 ++ sensor_updates t2.
Proof. unfold sensor_updates. now rewrite calls_app, omap_app. Qed.

Lemma scene_updates_call o r t :
  scene_updates (EvCall o r :: t) =
    match o with
    | SceneUpdate dt => (dt, r) :: scene_updates t
    | _ => scene_updates t
    end.
Proof. now destruct o. Qed.

Lemma scene_updates_log l msg t : scene_updates (EvLog l msg :: t) = scene_updates t.
Proof. reflexivity. Qed.

Lemma sensor_updates_call o r t :
  sensor_updates (EvCall o r :: t) =
    match o with
    | SensorUpdate name dt => (name, dt) :: sensor_updates t
    | _ => sensor_updates t
    end.
Proof. now destruct o. Qed.

Lemma sensor_updates_log l msg t : sensor_updates (EvLog l msg :: t) = sensor_updates t.
Proof. reflexivity. Qed.

Lemma only_app P t1 t2 : only P (t1 ++ t2) = only P t1 && only P t2.
Proof. unfold only. now rewrite calls_app, forallb_app. Qed.

Lemma only_weaken P Q t :
  (forall o, P o = true -> Q o = true) -> only P t = true -> only Q t = true.
Proof.
  intros HPQ. unfold only. rewrite !forallb_forall. intros H c Hc. apply HPQ, H, Hc.
Qed.

(** Operations of another kind leave no scene update, no sensor update. *)
Lemma only_no_scene_updates P t :
  (forall o, P o = true -> is_scene_op o = false) -> only P t = true -> scene_updates t = [].
Proof.
  intros HP. unfold only, scene_updates.
  induction (calls t) as [|[o r] cs IH]; simpl; [reflexivity|].
  intros [Ho Hcs]%andb_true_iff. specialize (HP o Ho).
  destruct o; try discriminate; simpl; auto.
Qed.

Lemma only_no_sensor_updates P t :
  (forall o, P o = true -> is_sensor_op o = false) -> only P t = true -> sensor_updates t = [].
Proof.
  intros HP. unfold only, sensor_updates.
  induction (calls t) as [|[o r] cs IH]; simpl; [reflexivity|].
  intros [Ho Hcs]%andb_true_iff. specialize (HP o Ho).
  destruct o; try discriminate; simpl; auto.
Qed.

Lemma failures_logged_app lv t1 t2 :
  failures_logged lv t1 = true -> failures_logged lv t2 = true ->
  failures_logged lv (t1 ++ t2) = true.
Proof.
  intros H1 H2. induction t1 as [|ev t1 IH]; simpl; [exact H2|].
  simpl in H1. destruct ev as [o [e|]|l msg]; auto.
  destruct (lv o e) as [l|]; auto.
  destruct t1 as [|[o' r'|l' msg'] t1]; try discriminate.
  apply andb_true_iff in H1 as [Hl H1]. simpl. rewrite Hl. simpl. apply IH, H1.
Qed.

(** A weaker table of levels asks less. *)
Lemma failures_logged_weaken (lv lv' : op -> exn -> option level) t :
  (forall o e l, lv' o e = Some l -> lv o e = Some l) ->
  failures_logged lv t = true -> failures_logged lv' t = true.
Proof.
  intros Hlv. induction t as [|ev t IH]; simpl; [reflexivity|].
  destruct ev as [o [e|]|l msg]; auto.
  destruct (lv' o e) as [l'|] eqn:Hl'.
  - rewrite (Hlv _ _ _ Hl'). destruct t as [|[o' r'|l2 msg2] t]; auto.
    intros [-> H]%andb_true_iff. simpl. auto.
  - destruct (lv o e); auto. destruct t as [|[o' r'|l2 msg2] t]; try discriminate.
    intros [_ H]%andb_true_iff. auto.
Qed.

Lemma level_eqb_refl l : level_eqb l l = true.
Proof. now destruct l. Qed.

Lemma tidy_nil P : tidy P [].
Proof. split; reflexivity. Qed.

Lemma tidy_app P t1 t2 : tidy P t1 -> tidy P t2 -> tidy P (t1 ++ t2).
Proof.
  intros [Ho1 Hl1] [Ho2 Hl2]. split.
  - rewrite only_app, Ho1, Ho2. reflexivity.
  - now apply failures_logged_app.
Qed.

Lemma tidy_weaken P Q t :
  (forall o, P o = true -> Q o = true) -> tidy P t -> tidy Q t.
Proof. intros HPQ [Ho Hl]. split; [eapply only_weaken; eauto|exact Hl]. Qed.

Lemma tidy_success P o : P o = true -> tidy P [EvCall o None].
Proof. intros Ho. split; [unfold only; simpl; now rewrite Ho|reflexivity]. Qed.

Lemma tidy_log P l msg : tidy P [EvLog l msg].
Proof. split; reflexivity. Qed.

Lemma tidy_failure P o e l msg :
  P o = true -> code_level o e = Some l -> tidy P [EvCall o (Some e); EvLog l msg].
Proof.
  intros Ho Hl. split; [unfold only; simpl; now rewrite Ho|].
  simpl. now rewrite Hl, level_eqb_refl.
Qed.

(** What [settle_outcome] says of the scene updates. *)
Lemma settle_outcome_returned n keys t :
  settle_outcome n keys t -> scene_updates_returned t = true ->
  scene_updates t = replicate n (0, None).
Proof.
  intros (k & _ & [[-> ->]|(e & Hlt & Hu)]) Hall; [reflexivity|].
  unfold scene_updates_returned in Hall. rewrite Hu, forallb_app in Hall.
  apply andb_true_iff in Hall as [_ Hall]. discriminate.
Qed.

Lemma completed_replicate (k : nat) (rest : list (Z * option exn)) :
  length (filter (fun u => snd u = None) (replicate k (0, @None exn) ++ rest)) =
  (k + length (filter (fun u => snd u = None) rest))%nat.
Proof.
  induction k as [|k IH]; [reflexivity|].
  cbn [replicate app]. rewrite filter_cons_True by reflexivity. simpl. now rewrite IH.
Qed.


End TraceFacts.

(** Further facts on traces. *)
Section TraceMore.

Implicit Types (t : list event) (P : op -> bool).

Lemma ops_app t1 t2 : ops (t1 ++ t2) = ops t1 ++ ops t2.
Proof. unfold ops. now rewrite calls_app, map_app. Qed.

Lemma calm_app t1 t2 : calm (t1 ++ t2) = calm t1 && calm t2.
Proof. apply forallb_app. Qed.

Lemma only_ops P t : only P t = forallb P (ops t).
Proof. unfold only, ops. induction (calls t) as [|c cs IH]; simpl; congruence. Qed.

(** Operations all of one kind leave nothing of a disjoint kind. *)
Lemma only_filter_out P (Q : op -> bool) t :
  (forall o, P o = true -> Q o = false) -> only P t = true -> filter Q (ops t) = [].
Proof.
  intros HPQ. rewrite only_ops. induction (ops t) as [|o os IH]; simpl; [reflexivity|].
  intros [Ho Hos]%andb_true_iff.
  rewrite filter_cons_False by (rewrite (HPQ o Ho); auto). auto.
Qed.

Lemma warnings_after_app prev t1 t2 :
  warnings_after prev t1 = true ->
  (forall p, warnings_after p t2 = true) ->
  warnings_after prev (t1 ++ t2) = true.
Proof.
  intros H1 H2. revert prev H1. induction t1 as [|ev t1 IH]; intros prev H1; [apply H2|].
  cbn [app warnings_after] in *. apply andb_true_iff in H1 as [Hev H1].
  rewrite Hev. now apply IH.
Qed.

(** Without warnings there is nothing to justify. *)
Lemma calm_warnings_after prev t : calm t = true -> warnings_after prev t = true.
Proof.
  revert prev. induction t as [|ev t IH]; intros prev; [reflexivity|].
  cbn [calm forallb warnings_after]. intros [Hev Ht]%andb_true_iff.
  rewrite (IH _ Ht), andb_true_r. destruct ev as [o r|[] msg]; simpl in *; congruence.
Qed.

End TraceMore.

Section BarrierFacts.

Context {R : RandomLib} {W V : Type}.
Variable sys : Imports W.
Implicit Types (self : BaseRandomizerType W V) (w : World W) (P : op -> bool).

Lemma guarded_ret {A} P (a : A) w : guarded P (ret a w).
Proof. apply tidy_nil. Qed.

Lemma guarded_debug P msg w : guarded P (logger_debug msg w).
Proof. apply tidy_log. Qed.

Lemma guarded_invoke {A} P o (f : call W A) w : P o = true -> guarded P (invoke o f w).
Proof.
  intros Ho. unfold invoke. destruct (f w) as [[a|e] w1]; simpl.
  - now apply tidy_success.
  - exists [], o. auto using tidy_nil.
Qed.

Lemma guarded_bind {A B} P (m : Py W A) (k : A -> Py W B) w :
  guarded P (m w) -> (forall a w1, guarded P (k a w1)) -> guarded P (bind m k w).
Proof.
  intros Hm Hk. unfold bind. destruct (m w) as [[[a|e] w1] t1]; simpl in *; [|exact Hm].
  specialize (Hk a w1). destruct (k a w1) as [[[b|e] w2] t2]; simpl in *.
  - now apply tidy_app.
  - destruct Hk as (t0 & o & -> & Ho & Ht0).
    exists (t1 ++ t0), o. rewrite app_assoc. auto using tidy_app.
Qed.

(** A [try] whose handler only logs, at the level of the module for the
    operations of the body, returns and leaves a tidy trace. *)
Lemma try_except_tidy {A} P (body : Py W A) (h : exn -> Py W A) w :
  guarded P (body w) ->
  (forall e w1, exists a l msg,
      h e w1 = (Ok a, w1, [EvLog l msg]) /\
      forall o, P o = true -> code_level o e = Some l) ->
  exists a w' t, try_except body h w = (Ok a, w', t) /\ tidy P t.
Proof.
  intros Hb Hh. unfold try_except. destruct (body w) as [[[a|e] w1] t1]; simpl in *.
  - eauto.
  - destruct Hb as (t0 & o & -> & Ho & Ht0).
    destruct (Hh e w1) as (a & l & msg & -> & Hl).
    do 3 eexists. split; [reflexivity|].
    rewrite <- app_assoc. apply tidy_app; [exact Ht0|]. simpl.
    apply tidy_failure; auto.
Qed.

Ltac guarded_step :=
  cbn beta iota;
  first [ apply guarded_ret | apply guarded_debug | apply tidy_nil | apply tidy_log
        | apply guarded_invoke; reflexivity ].

Lemma unit_result (out : result unit * World W * list event) P :
  (exists a w' t, out = (Ok a, w', t) /\ tidy P t) ->
  exists w' t, out = (Ok tt, w', t) /\ tidy P t.
Proof. intros ([] & w' & t & -> & Ht). eauto. Qed.

(** *** The material wait *)

Lemma probe_wait_methods_guarded (instance : MatInstance W) names w :
  guarded is_material_op (probe_wait_methods instance names w).
Proof.
  induction names as [|name names IH]; cbn [probe_wait_methods]; [guarded_step|].
  destruct (instance_attr instance name) as [wait_method|]; [|exact IH].
  apply guarded_bind; [guarded_step|]. intros; guarded_step.
Qed.

Lemma wait_for_material_library_spec self w :
  exists w' t, _wait_for_material_library sys self w = (Ok tt, w', t) /\
               tidy is_material_op t.
Proof.
  apply unit_result. unfold _wait_for_material_library. apply try_except_tidy.
  - apply guarded_bind; [guarded_step|]. intros matlib w1.
    apply guarded_bind.
    + destruct (wait_for_pending_refreshes matlib) as [wait_fn|].
      * apply guarded_bind; [guarded_step|]. intros; guarded_step.
      * destruct (get_instance matlib) as [get_inst|]; [|guarded_step].
        apply guarded_bind; [guarded_step|].
        intros; apply probe_wait_methods_guarded.
    + intros [] w2; guarded_step.
  - intros [[] msg] w1; simpl; do 3 eexists; (split; [reflexivity|]);
      intros o Ho; unfold code_level; destruct o; try discriminate; reflexivity.
Qed.

(** *** The async flush *)

Lemma wait_for_async_engine_spec self w :
  exists w' r t,
    _wait_for_async_engine sys self w = (Ok tt, w', EvCall ImportAsyncEngine r :: t) /\
    tidy is_async_op (EvCall ImportAsyncEngine r :: t).
Proof.
  assert (H : exists w' t, _wait_for_async_engine sys self w = (Ok tt, w', t) /\
                           tidy is_async_op t).
  { apply unit_result. unfold _wait_for_async_engine. apply try_except_tidy.
    - apply guarded_bind; [guarded_step|]. intros get_engine w1.
      apply guarded_bind; [guarded_step|]. intros engine w2.
      guarded_step.
    - intros [[] msg] w1; simpl; do 3 eexists; (split; [reflexivity|]);
        intros o Ho; unfold code_level; destruct o; try discriminate; reflexivity. }
  destruct H as (w' & t & Hrun & Ht).
  assert (Hhd : exists r t', t = EvCall ImportAsyncEngine r :: t').
  { revert Hrun. unfold _wait_for_async_engine, try_except, bind, invoke.
    destruct (import_get_async_engine sys w) as [[get_engine|e] w1].
    - destruct (get_engine w1) as [[engine|e] w2].
      + destruct (wait_for_tasks engine w2) as [[[]|e] w3]; simpl.
        * intros [= _ <-]. eauto.
        * destruct (exn_class_of e); simpl; intros [= _ <-]; eauto.
      + simpl. destruct (exn_class_of e); simpl; intros [= _ <-]; eauto.
    - simpl. destruct (exn_class_of e); simpl; intros [= _ <-]; eauto. }
  destruct Hhd as (r & t' & ->). eauto.
Qed.

(** *** The settle loop *)

Lemma try_scene_update_spec (sc : Scene W) w :
  (exists w', try_scene_update sc w = (Ok true, w', [EvCall (SceneUpdate 0) None])) \/
  (exists e w',
     try_scene_update sc w =
       (Ok false, w',
        [EvCall (SceneUpdate 0) (Some e);
         EvLog DEBUG ("Scene update during settle failed: " +:+ exn_str e)])).
Proof.
  unfold try_scene_update, try_except, bind, invoke.
  destruct (scene_update sc 0 w) as [[[]|e] w1]; simpl; eauto.
Qed.

Lemma try_render_spec (sm : option (Sim W)) w :
  exists w' t, try_render sm w = (Ok tt, w', t) /\ tidy is_sim_op t.
Proof.
  destruct sm as [sm|]; simpl.
  2: { do 2 eexists. split; [reflexivity|apply tidy_nil]. }
  apply unit_result, try_except_tidy.
  - apply guarded_bind; [guarded_step|]. intros gui w1.
    apply guarded_bind.
    + destruct gui; guarded_step.
    + intros [] w2; guarded_step.
  - intros e w1. do 3 eexists. split; [reflexivity|].
    intros o Ho; unfold code_level; destruct o; try discriminate; reflexivity.
Qed.

(** Sequencing after a computation that raised. *)
Lemma bind_raise {A B} (m : Py W A) (k : A -> Py W B) w e w1 t1 :
  m w = (Raise e, w1, t1) -> bind m k w = (Raise e, w1, t1).
Proof. intros H. unfold bind. now rewrite H. Qed.

(** The sim block of a pass, by what the sim answers. *)
Lemma try_render_cases (sm : Sim W) w :
  try_render (Some sm) w =
    match has_gui sm w with
    | (Raise e, w1) => (Ok tt, w1, [EvCall SimHasGui (Some e); sim_failure_record e])
    | (Ok true, w1) =>
        match render sm w1 with
        | (Ok _, w2) => (Ok tt, w2, succeeded [SimHasGui; SimRender])
        | (Raise e, w2) =>
            (Ok tt, w2,
             succeeded [SimHasGui] ++ [EvCall SimRender (Some e); sim_failure_record e])
        end
    | (Ok false, w1) =>
        match has_rtx_sensors sm w1 with
        | (Raise e, w2) =>
            (Ok tt, w2,
             succeeded [SimHasGui] ++ [EvCall SimHasRtxSensors (Some e); sim_failure_record e])
        | (Ok false, w2) => (Ok tt, w2, succeeded [SimHasGui; SimHasRtxSensors])
        | (Ok true, w2) =>
            match render sm w2 with
            | (Ok _, w3) => (Ok tt, w3, succeeded [SimHasGui; SimHasRtxSensors; SimRender])
            | (Raise e, w3) =>
                (Ok tt, w3,
                 succeeded [SimHasGui; SimHasRtxSensors] ++
                 [EvCall SimRender (Some e); sim_failure_record e])
            end
        end
    end.
Proof.
  unfold try_render, try_except, bind, invoke, ret, logger_debug, sim_failure_record.
  destruct (has_gui sm w) as [[[|]|e] w1]; [| |reflexivity].
  - destruct (render sm w1) as [[[]|e] w2]; reflexivity.
  - destruct (has_rtx_sensors sm w1) as [[[|]|e] w2]; [| reflexivity|reflexivity].
    destruct (render sm w2) as [[[]|e] w3]; reflexivity.
Qed.

Lemma try_render_calm (sm : option (Sim W)) w : calm (snd (try_render sm w)) = true.
Proof.
  destruct sm as [sm|]; [|reflexivity]. rewrite try_render_cases.
  destruct (has_gui sm w) as [[[|]|e] w1]; [| |reflexivity].
  - destruct (render sm w1) as [[[]|e] w2]; reflexivity.
  - destruct (has_rtx_sensors sm w1) as [[[|]|e] w2]; [| reflexivity|reflexivity].
    destruct (render sm w2) as [[[]|e] w3]; reflexivity.
Qed.

(** *** The loop over the sensors *)

Lemma update_sensor_spec (name : string) (sensor : Sensor W) w :
  exists w' t,
    update_sensor name sensor w = (Ok tt, w', t) /\
    tidy is_sensor_op t /\
    calm t = true /\
    sensor_updates t = [(name, 0)] /\
    forall c : World W -> nat, preserves c (sensor_update sensor 0) -> c w' = c w.
Proof.
  unfold update_sensor, try_except, invoke, logger_debug.
  assert (Hc : forall c : World W -> nat,
             preserves c (sensor_update sensor 0) -> c (snd (sensor_update sensor 0 w)) = c w)
    by (intros c Hp; apply Hp).
  destruct (sensor_update sensor 0 w) as [[[]|e] w1]; do 2 eexists;
    (split; [reflexivity|]); (split; [|split; [reflexivity|split; [reflexivity|exact Hc]]]).
  - now apply tidy_success.
  - now apply tidy_failure.
Qed.

(** Whatever becomes of the dict, the loop leaves a tidy trace of sensor
    updates, and no warning. *)
Lemma update_sensors_any (d : sensor_dict W) (size left : nat) : forall w,
  exists r w' t,
    update_sensors d size left w = (r, w', t) /\ tidy is_sensor_op t /\ calm t = true /\
    forall e, r = Raise e -> e = Exn OtherException "dictionary changed size during iteration".
Proof.
  assert (Hstop : forall (r : result unit) w',
             (r = Ok tt \/
              r = Raise (Exn OtherException "dictionary changed size during iteration")) ->
             exists r0 w0 t0,
               (r, w', @nil event) = (r0, w0, t0) /\ tidy is_sensor_op t0 /\ calm t0 = true /\
               forall e, r0 = Raise e ->
                         e = Exn OtherException "dictionary changed size during iteration").
  { intros r w' Hr. exists r, w', []. split; [reflexivity|]. split; [apply tidy_nil|].
    split; [reflexivity|]. intros e He. destruct Hr as [->| ->]; congruence. }
  induction left as [|left IH]; intros w; cbn [update_sensors];
    destruct (length (d w) =? size)%nat; try (apply Hstop; auto).
  destruct (d w !! (size - S left)%nat) as [[name sensor]|]; [|apply Hstop; auto].
  destruct (update_sensor_spec name sensor w) as (w1 & t1 & H1 & Ht1 & Hc1 & _).
  rewrite (bind_ok _ _ _ _ _ _ H1).
  destruct (IH w1) as (r & w2 & t2 & -> & Ht2 & Hc2 & He).
  do 3 eexists. split; [reflexivity|]. split; [now apply tidy_app|].
  split; [now rewrite calm_app, Hc1, Hc2|exact He].
Qed.

(** Over a dict that stays as it is, the loop updates every sensor that is
    left, in order, and returns. *)
Lemma update_sensors_fixed (d : sensor_dict W) (l : list (string * Sensor W)) :
  (forall w, d w = l) ->
  forall rest done w,
    l = done ++ rest ->
    exists w' t,
      update_sensors d (length l) (length rest) w = (Ok tt, w', t) /\
      tidy is_sensor_op t /\
      sensor_updates t = sensor_keys rest /\
      forall c : World W -> nat, quiet_sensors c rest -> c w' = c w.
Proof.
  intros Hd rest. induction rest as [|[name sensor] rest IH]; intros done w Hl;
    cbn [update_sensors length]; rewrite Hd, Nat.eqb_refl.
  - do 2 eexists. split; [reflexivity|]. split; [apply tidy_nil|]. split; reflexivity.
  - assert (Hi : l !! (length l - S (length rest))%nat = Some (name, sensor)).
    { rewrite Hl at 2. rewrite Hl, length_app. cbn [length].
      replace (length done + S (length rest) - S (length rest))%nat with (length done) by lia.
      apply list_lookup_middle. reflexivity. }
    rewrite Hi.
    destruct (update_sensor_spec name sensor w) as (w1 & t1 & H1 & Ht1 & _ & Hs1 & Hc1).
    rewrite (bind_ok _ _ _ _ _ _ H1).
    destruct (IH (done ++ [(name, sensor)]) w1) as (w2 & t2 & -> & Ht2 & Hs2 & Hc2).
    { now rewrite <- app_assoc. }
    do 2 eexists. split; [reflexivity|]. split; [now apply tidy_app|]. split.
    + rewrite sensor_updates_app, Hs1, Hs2. reflexivity.
    + intros c Hq. apply Forall_cons in Hq as [Hq1 Hq2].
      rewrite (Hc2 c Hq2). apply Hc1, Hq1.
Qed.

Lemma update_scene_sensors_any (sc : Scene W) w :
  exists r w' t,
    update_scene_sensors sc w = (r, w', t) /\ tidy is_sensor_op t /\ calm t = true /\
    forall e, r = Raise e -> escapes sc e.
Proof.
  unfold update_scene_sensors.
  destruct (scene_sensors sc w) as [|type_name|d] eqn:Hattr.
  - do 3 eexists. split; [reflexivity|]. split; [apply tidy_nil|]. split; [reflexivity|].
    discriminate.
  - do 3 eexists. split; [reflexivity|]. split; [apply tidy_nil|]. split; [reflexivity|].
    intros e [= <-]. right. exists type_name, w. auto.
  - destruct (update_sensors_any d (length (d w)) (length (d w)) w)
      as (r & w' & t & Hrun & Ht & Hc & He).
    exists r, w', t. repeat (split; [assumption|]). intros e Hr. left. now apply He.
Qed.

Lemma update_scene_sensors_steady (sc : Scene W) (l : list (string * Sensor W)) w :
  steady sc l ->
  exists w' t,
    update_scene_sensors sc w = (Ok tt, w', t) /\
    tidy is_sensor_op t /\
    sensor_updates t = sensor_keys l /\
    forall c : World W -> nat, quiet_sensors c l -> c w' = c w.
Proof.
  intros Hst. specialize (Hst w). unfold update_scene_sensors.
  destruct (scene_sensors sc w) as [|type_name|d]; [|contradiction|].
  - subst l. do 2 eexists. split; [reflexivity|]. split; [apply tidy_nil|]. split; reflexivity.
  - rewrite (Hst w). apply (update_sensors_fixed d l Hst l [] w). reflexivity.
Qed.

(** *** The settle loop *)

Lemma sim_in_settle o : is_sim_op o = true -> is_settle_op o = true.
Proof. intros Ho. unfold is_settle_op. rewrite Ho. now destruct (is_scene_op o). Qed.

Lemma sensor_in_settle o : is_sensor_op o = true -> is_settle_op o = true.
Proof.
  intros Ho. unfold is_settle_op. rewrite Ho. now destruct (is_scene_op o), (is_sim_op o).
Qed.

(** Whatever the sensors of the scene are, the loop leaves a tidy trace
    without warning, and the scene updates it attempted have the shape
    its result tells. *)
Lemma settle_loop_any (sc : Scene W) (sm : option (Sim W)) (n : nat) : forall w,
  exists r w' t,
    settle_loop sc sm n w = (r, w', t) /\
    tidy is_settle_op t /\
    calm t = true /\
    scene_shape n (returned r) (scene_updates t) /\
    forall e, r = Raise e -> escapes sc e.
Proof.
  induction n as [|n IH]; intros w; cbn [settle_loop].
  - exists (Ok tt), w, []. split; [reflexivity|]. split; [apply tidy_nil|].
    split; [reflexivity|]. split; [left; reflexivity|discriminate].
  - destruct (try_scene_update_spec sc w) as [(w1 & Hsc)|(e & w1 & Hsc)];
      rewrite (bind_ok _ _ _ _ _ _ Hsc); cbn beta iota.
    + pose proof (try_render_calm sm w1) as Hc2.
      destruct (try_render_spec sm w1) as (w2 & t2 & Hr & Ht2).
      rewrite Hr in Hc2. cbn [snd] in Hc2. rewrite (bind_ok _ _ _ _ _ _ Hr).
      assert (Hu2 : scene_updates t2 = []).
      { eapply only_no_scene_updates; [|apply Ht2]. now intros []. }
      destruct (update_scene_sensors_any sc w2) as (r3 & w3 & t3 & Hu & Ht3 & Hc3 & He3).
      assert (Hu3 : scene_updates t3 = []).
      { eapply only_no_scene_updates; [|apply Ht3]. now intros []. }
      assert (Ht23 : tidy is_settle_op (t2 ++ t3)).
      { apply tidy_app.
        - apply (tidy_weaken is_sim_op); [apply sim_in_settle|exact Ht2].
        - apply (tidy_weaken is_sensor_op); [apply sensor_in_settle|exact Ht3]. }
      destruct r3 as [[]|e].
      * rewrite (bind_ok _ _ _ _ _ _ Hu).
        destruct (IH w3) as (r4 & w4 & t4 & -> & Ht4 & Hc4 & Hsh & He4).
        exists r4, w4, ([EvCall (SceneUpdate 0) None] ++ t2 ++ t3 ++ t4).
        split; [reflexivity|]. split.
        { apply (tidy_app _ [_]); [now apply tidy_success|].
          rewrite app_assoc. now apply tidy_app. }
        split.
        { cbn [app calm forallb]. fold (calm (t2 ++ t3 ++ t4)).
          now rewrite !calm_app, Hc2, Hc3, Hc4. }
        split; [|exact He4].
        cbn [app]. rewrite scene_updates_call, !scene_updates_app, Hu2, Hu3. cbn [app].
        unfold scene_shape in *. destruct (returned r4).
        -- destruct Hsh as [->|(k & e & Hlt & ->)].
           ++ left. reflexivity.
           ++ right. exists (S k), e. split; [lia|reflexivity].
        -- destruct Hsh as (k & Hk & ->). exists (S k). split; [lia|reflexivity].
      * rewrite (bind_raise _ _ _ _ _ _ Hu).
        exists (Raise e), w3, ([EvCall (SceneUpdate 0) None] ++ t2 ++ t3).
        split; [reflexivity|]. split.
        { apply (tidy_app _ [_]); [now apply tidy_success|exact Ht23]. }
        split.
        { cbn [app calm forallb]. fold (calm (t2 ++ t3)). now rewrite calm_app, Hc2, Hc3. }
        split; [|now intros e' [= <-]; apply He3].
        cbn [app]. rewrite scene_updates_call, scene_updates_app, Hu2, Hu3.
        exists 1%nat. split; [lia|reflexivity].
    + exists (Ok tt), w1. eexists. split; [reflexivity|]. split.
      * rewrite app_nil_r. now apply tidy_failure.
      * split; [reflexivity|]. split; [|discriminate].
        right. exists O, e. split; [lia|reflexivity].
Qed.

(** Over a scene with steady sensors the loop returns, each pass that got
    past its scene update updates every sensor, and the trace has the
    shape of the passes. *)
Lemma settle_loop_steady (sc : Scene W) (sm : option (Sim W))
    (l : list (string * Sensor W)) (n : nat) :
  steady sc l ->
  forall w,
    exists w' t,
      settle_loop sc sm n w = (Ok tt, w', t) /\
      settle_outcome n (sensor_keys l) t /\
      settle_trace (sensor_keys l) n t.
Proof.
  intros Hst. induction n as [|n IH]; intros w; cbn [settle_loop].
  - do 2 eexists. split; [reflexivity|]. split; [|constructor].
    exists O. split; [reflexivity|]. left. split; reflexivity.
  - destruct (try_scene_update_spec sc w) as [(w1 & Hsc)|(e & w1 & Hsc)];
      rewrite (bind_ok _ _ _ _ _ _ Hsc); cbn beta iota.
    + destruct (try_render_spec sm w1) as (w2 & t2 & Hr & Ht2).
      rewrite (bind_ok _ _ _ _ _ _ Hr).
      destruct (update_scene_sensors_steady sc l w2 Hst) as (w3 & t3 & Hu & Ht3 & Hs3 & _).
      rewrite (bind_ok _ _ _ _ _ _ Hu).
      destruct (IH w3) as (w4 & t4 & -> & (k & Hs4 & Hk) & Htr).
      do 2 eexists. split; [reflexivity|]. split.
      * assert (Hs2 : sensor_updates t2 = []).
        { eapply only_no_sensor_updates; [|apply Ht2]. now intros []. }
        assert (Hu2 : scene_updates t2 = []).
        { eapply only_no_scene_updates; [|apply Ht2]. now intros []. }
        assert (Hu3 : scene_updates t3 = []).
        { eapply only_no_scene_updates; [|apply Ht3]. now intros []. }
        exists (S k). split.
        -- cbn [app]. rewrite sensor_updates_call, !sensor_updates_app, Hs2, Hs3, Hs4.
           reflexivity.
        -- cbn [app]. rewrite scene_updates_call, !scene_updates_app, Hu2, Hu3. cbn [app].
           destruct Hk as [[-> ->]|(e & Hlt & ->)].
           ++ left. split; reflexivity.
           ++ right. exists e. split; [lia|reflexivity].
      * cbn [app]. apply settle_pass; [apply Ht2|apply Ht3|exact Hs3|exact Htr].
    + do 2 eexists. split; [reflexivity|]. split.
      * exists O. split; [reflexivity|]. right. exists e. split; [lia|reflexivity].
      * cbn [app]. apply settle_abort.
Qed.

Lemma settle_renderer_frames_any self (settle_passes : Z) w :
  exists r w' t,
    _settle_renderer_frames self settle_passes w = (r, w', t) /\
    tidy is_settle_op t /\
    calm t = true /\
    (exists n : nat,
        (n <= Z.to_nat (Z.max 0 settle_passes))%nat /\
        scene_shape n (returned r) (scene_updates t)) /\
    forall e, r = Raise e ->
              exists h sc, handler self = Some h /\ scene h = Some sc /\ escapes sc e.
Proof.
  unfold _settle_renderer_frames.
  destruct (handler self) as [h|]; [destruct (scene h) as [sc|] eqn:Hsc|].
  - destruct (settle_loop_any sc (sim h) (Z.to_nat (Z.max 0 settle_passes)) w)
      as (r & w' & t & Hrun & Ht & Hc & Hsh & He).
    exists r, w', t. repeat (split; [assumption|]). split; [eauto|].
    intros e Hr. exists h, sc. auto.
  - exists (Ok tt), w, []. split; [reflexivity|]. split; [apply tidy_nil|].
    split; [reflexivity|]. split; [|discriminate]. exists O. split; [lia|]. left. reflexivity.
  - exists (Ok tt), w, []. split; [reflexivity|]. split; [apply tidy_nil|].
    split; [reflexivity|]. split; [|discriminate]. exists O. split; [lia|]. left. reflexivity.
Qed.

Lemma settle_renderer_frames_steady self h sc (l : list (string * Sensor W))
    (settle_passes : Z) w :
  handler self = Some h ->
  scene h = Some sc ->
  steady sc l ->
  exists w' t,
    _settle_renderer_frames self settle_passes w = (Ok tt, w', t) /\
    settle_outcome (Z.to_nat (Z.max 0 settle_passes)) (sensor_keys l) t /\
    settle_trace (sensor_keys l) (Z.to_nat (Z.max 0 settle_passes)) t.
Proof.
  intros Hh Hsc Hst. unfold _settle_renderer_frames. rewrite Hh, Hsc.
  now apply settle_loop_steady.
Qed.

Lemma settle_renderer_frames_proper self (settle_passes : Z) w :
  proper self ->
  exists w' t, _settle_renderer_frames self settle_passes w = (Ok tt, w', t).
Proof.
  unfold proper, proper_handler. intros Hp.
  destruct (handler self) as [h|] eqn:Hh; [destruct (scene h) as [sc|] eqn:Hsc|].
  - destruct Hp as (l & Hst).
    destruct (settle_renderer_frames_steady self h sc l settle_passes w Hh Hsc Hst)
      as (w' & t & Hrun & _). eauto.
  - unfold _settle_renderer_frames. rewrite Hh, Hsc. unfold ret. eauto.
  - unfold _settle_renderer_frames. rewrite Hh. unfold ret. eauto.
Qed.

(** *** The barrier *)

(** The barrier is its phases run one after the other, each from the
    world the one before left: the material wait (nothing when it is not
    asked for), which returns; the settle loop; and, when the settle loop
    returned, the async flush, which begins by the import of the engine
    and returns.  What the settle loop raises leaves the barrier. *)
Lemma sync_visual_updates_outcome self (wait_for_materials : bool) (settle_passes : Z) w :
  exists w1 tm r w2 ts,
    (if wait_for_materials then _wait_for_material_library sys self else ret tt) w
      = (Ok tt, w1, tm) /\
    _settle_renderer_frames self settle_passes w1 = (r, w2, ts) /\
    tidy is_material_op tm /\
    (wait_for_materials = false -> tm = []) /\
    tidy is_settle_op ts /\
    calm ts = true /\
    (exists n : nat,
        (n <= Z.to_nat (Z.max 0 settle_passes))%nat /\
        scene_shape n (returned r) (scene_updates ts)) /\
    (forall e, r = Raise e ->
               exists h sc, handler self = Some h /\ scene h = Some sc /\ escapes sc e) /\
    match r with
    | Ok _ =>
        exists w3 ra ta,
          _wait_for_async_engine sys self w2 = (Ok tt, w3, EvCall ImportAsyncEngine ra :: ta) /\
          tidy is_async_op (EvCall ImportAsyncEngine ra :: ta) /\
          _sync_visual_updates sys self wait_for_materials settle_passes w =
            (Ok tt, w3, tm ++ ts ++ EvCall ImportAsyncEngine ra :: ta)
    | Raise e =>
        _sync_visual_updates sys self wait_for_materials settle_passes w =
          (Raise e, w2, tm ++ ts)
    end.
Proof.
  assert (Hm : exists w1 tm,
             (if wait_for_materials then _wait_for_material_library sys self else ret tt) w
             = (Ok tt, w1, tm) /\ tidy is_material_op tm /\
             (wait_for_materials = false -> tm = [])).
  { destruct wait_for_materials.
    - destruct (wait_for_material_library_spec self w) as (w1 & tm & Hm & Htm).
      exists w1, tm. split; [exact Hm|]. split; [exact Htm|discriminate].
    - exists w, []. split; [reflexivity|]. split; [apply tidy_nil|reflexivity]. }
  destruct Hm as (w1 & tm & Hm & Htm & Hoff).
  destruct (settle_renderer_frames_any self settle_passes w1)
    as (r & w2 & ts & Hs & Hts & Hcs & Hsh & He).
  exists w1, tm, r, w2, ts. repeat (split; [assumption|]).
  unfold _sync_visual_updates. rewrite (bind_ok _ _ _ _ _ _ Hm).
  destruct r as [[]|e].
  - destruct (wait_for_async_engine_spec self w2) as (w3 & ra & ta & Ha & Hta).
    exists w3, ra, ta. split; [exact Ha|]. split; [exact Hta|].
    rewrite (bind_ok _ _ _ _ _ _ Hs), Ha. reflexivity.
  - rewrite (bind_raise _ _ _ _ _ _ Hs). reflexivity.
Qed.

(** With an instance that is proper the barrier returns. *)
Lemma sync_visual_updates_returns self (wait_for_materials : bool) (settle_passes : Z) w :
  proper self ->
  exists w1 w2 w3 tm ts ra ta,
    (if wait_for_materials then _wait_for_material_library sys self else ret tt) w
      = (Ok tt, w1, tm) /\
    _settle_renderer_frames self settle_passes w1 = (Ok tt, w2, ts) /\
    _wait_for_async_engine sys self w2 = (Ok tt, w3, EvCall ImportAsyncEngine ra :: ta) /\
    _sync_visual_updates sys self wait_for_materials settle_passes w =
      (Ok tt, w3, tm ++ ts ++ EvCall ImportAsyncEngine ra :: ta) /\
    tidy is_material_op tm /\
    tidy is_settle_op ts /\
    tidy is_async_op (EvCall ImportAsyncEngine ra :: ta).
Proof.
  intros Hp.
  destruct (sync_visual_updates_outcome self wait_for_materials settle_passes w)
    as (w1 & tm & r & w2 & ts & Hm & Hs & Htm & _ & Hts & _ & _ & _ & Hout).
  destruct (settle_renderer_frames_proper self settle_passes w1 Hp) as (w2' & ts' & Hs').
  rewrite Hs in Hs'. injection Hs' as -> _ _.
  destruct Hout as (w3 & ra & ta & Ha & Hta & Hsync).
  exists w1, w2, w3, tm, ts, ra, ta. tauto.
Qed.



(** With [wait_for_materials] the barrier begins by the import of the
    material library. *)
Lemma wait_for_material_library_head self w :
  exists r t, snd (_wait_for_material_library sys self w) = EvCall ImportMaterialLibrary r :: t.
Proof.
  unfold _wait_for_material_library, try_except. unfold bind at 1. unfold invoke at 1.
  destruct (import_material_library sys w) as [[matlib|e] w1].
  - match goal with |- context [bind ?m ?k w1] => destruct (bind m k w1) as [[[[]|e] w2] t2] end.
    + simpl. eauto.
    + simpl. destruct (exn_class_of e); simpl; eauto.
  - simpl. destruct (exn_class_of e); simpl; eauto.
Qed.

(** The first [try] of a pass, by what the scene update does. *)
Lemma try_scene_update_cases (sc : Scene W) w :
  try_scene_update sc w =
    match scene_update sc 0 w with
    | (Ok _, w1) => (Ok true, w1, [EvCall (SceneUpdate 0) None])
    | (Raise e, w1) =>
        (Ok false, w1, [EvCall (SceneUpdate 0) (Some e); scene_failure_record e])
    end.
Proof.
  unfold try_scene_update, try_except, bind, invoke, ret, logger_debug, scene_failure_record.
  destruct (scene_update sc 0 w) as [[[]|e] w1]; reflexivity.
Qed.

(** Over a scene whose attribute [sensors] has no [values], a loop whose
    first scene update returns raises in its first pass, after the
    operations on the sim. *)
Lemma settle_loop_without_values (sc : Scene W) (sm : option (Sim W))
    (type_name : string) (n : nat) w :
  (forall w1, scene_sensors sc w1 = NotADict type_name) ->
  returned (fst (scene_update sc 0 w)) = true ->
  exists w' t2,
    settle_loop sc sm (S n) w =
      (Raise (Exn OtherException ("'" +:+ type_name +:+ "' object has no attribute 'values'")),
       w', EvCall (SceneUpdate 0) None :: t2) /\
    tidy is_sim_op t2.
Proof.
  intros Hattr Hret. cbn [settle_loop].
  assert (Hsc : exists w1, try_scene_update sc w = (Ok true, w1, [EvCall (SceneUpdate 0) None])).
  { rewrite try_scene_update_cases.
    destruct (scene_update sc 0 w) as [[[]|e] w1]; [eauto|discriminate]. }
  destruct Hsc as (w1 & Hsc). rewrite (bind_ok _ _ _ _ _ _ Hsc). cbn beta iota.
  destruct (try_render_spec sm w1) as (w2 & t2 & Hr & Ht2).
  rewrite (bind_ok _ _ _ _ _ _ Hr).
  assert (Hu : update_scene_sensors sc w2 =
               (Raise (Exn OtherException
                         ("'" +:+ type_name +:+ "' object has no attribute 'values'")),
                w2, [])).
  { unfold update_scene_sensors. now rewrite Hattr. }
  rewrite (bind_raise _ _ _ _ _ _ Hu). cbn [app]. rewrite app_nil_r. eauto.
Qed.

(** *** What [scene_shape] says of the scene updates *)



(** *** One operation on an instance *)

Lemma init_proper (seed0 : option Z) (kw : gmap string V) w a w' t :
  __init__ seed0 kw w = (Ok a, w', t) -> proper a.
Proof.
  destruct seed0 as [s|]; cbn [__init__]; [rewrite set_seed_eq|unfold ret];
    intros [= <- _ _]; exact I.
Qed.

(** An operation returns an instance that satisfies [seed_inv] when the
    one it was given did, and that is proper when that one was and no other
    handler was bound than a proper one; only the barrier and its settle
    loop can raise, and only on an instance that is not proper. *)
Lemma run_method_step (m : method W V) self w :
  seed_inv self = true ->
  exists r w' t,
    run_method sys m self w = (r, w', t) /\
    match r with
    | Ok self' => seed_inv self' = true /\ (tame m -> proper self -> proper self')
    | Raise _ => is_barrier m = true /\ ~ proper self
    end.
Proof.
  intros Hinv.
  assert (Hunit : forall (c : Py W unit) w1 t1,
             c w = (Ok tt, w1, t1) ->
             exists r w' t,
               (c >> ret self) w = (r, w', t) /\
               match r with
               | Ok self' => seed_inv self' = true /\ (tame m -> proper self -> proper self')
               | Raise _ => is_barrier m = true /\ ~ proper self
               end).
  { intros c w1 t1 Hc. rewrite (bind_ok _ _ _ _ _ _ Hc). unfold ret.
    do 3 eexists. split; [reflexivity|]. split; [exact Hinv|auto]. }
  destruct m as [seed0 kw|seed0| | |h| |wfm n| |n|]; cbn [run_method].
  - destruct (init_returns seed0 kw w) as (a & w' & Ha & Hi).
    exists (Ok a), w', []. split; [exact Ha|]. split; [exact Hi|].
    intros _ _. exact (init_proper _ _ _ _ _ _ Ha).
  - rewrite set_seed_eq. do 3 eexists. split; [reflexivity|]. split; [reflexivity|].
    intros _ Hp. exact Hp.
  - unfold ret. do 3 eexists. split; [reflexivity|]. split; [exact Hinv|auto].
  - destruct (_rng self) as [r|] eqn:Hr.
    + erewrite bind_ok by (apply rng_present; exact Hr). unfold ret.
      do 3 eexists. split; [reflexivity|]. split; [exact Hinv|auto].
    + erewrite bind_ok by (apply rng_absent; exact Hr). unfold ret.
      do 3 eexists. split; [reflexivity|]. split; [reflexivity|]. intros _ Hp. exact Hp.
  - unfold ret. do 3 eexists. split; [reflexivity|]. split; [exact Hinv|].
    intros Ht _. destruct h as [h|]; [exact Ht|exact I].
  - apply (Hunit _ w []). reflexivity.
  - destruct (sync_visual_updates_outcome self wfm n w)
      as (w1 & tm & r & w2 & ts & _ & Hs & _ & _ & _ & _ & _ & _ & Hout).
    destruct r as [[]|e].
    + destruct Hout as (w3 & ra & ta & _ & _ & Hsync). eapply Hunit, Hsync.
    + rewrite (bind_raise _ _ _ _ _ _ Hout). do 3 eexists. split; [reflexivity|].
      split; [reflexivity|]. intros Hp.
      destruct (sync_visual_updates_returns self wfm n w Hp)
        as (? & ? & ? & ? & ? & ? & ? & _ & _ & _ & Hok & _).
      rewrite Hout in Hok. discriminate.
  - destruct (wait_for_material_library_spec self w) as (w' & t & Hrun & _).
    eapply Hunit, Hrun.
  - destruct (settle_renderer_frames_any self n w) as (r & w' & t & Hrun & _).
    destruct r as [[]|e].
    + eapply Hunit, Hrun.
    + rewrite (bind_raise _ _ _ _ _ _ Hrun). do 3 eexists. split; [reflexivity|].
      split; [reflexivity|]. intros Hp.
      destruct (settle_renderer_frames_proper self n w Hp) as (? & ? & Hok).
      rewrite Hrun in Hok. discriminate.
  - destruct (wait_for_async_engine_spec self w) as (w' & r & t & Hrun & _).
    eapply Hunit, Hrun.
Qed.

End BarrierFacts.

Section BarrierClaims.

Context {R : RandomLib} {W V : Type}.
Variable sys : Imports W.
Implicit Types (self : BaseRandomizerType W V) (w : World W).

(** C2. The barrier does not return for every instance.  With a scene
    whose attribute [sensors] is an object without [values], [None] for
    one, a barrier of one pass or more whose scene update returns raises
    the [AttributeError] of [sensors.values()], which is outside every
    [try]: the loop stops after one scene update, and nothing of the
    async flush is attempted. *)
Theorem sensors_without_values_raise self h sc (type_name : string)
    (wait_for_materials : bool) (settle_passes : Z) w :
  handler self = Some h ->
  scene h = Some sc ->
  (forall w1, scene_sensors sc w1 = NotADict type_name) ->
  (forall w1, returned (fst (scene_update sc 0 w1)) = true) ->
  1 <= settle_passes ->
  exists w' t,
    _sync_visual_updates sys self wait_for_materials settle_passes w =
      (Raise (Exn OtherException ("'" +:+ type_name +:+ "' object has no attribute 'values'")),
       w', t) /\
    scene_updates t = [(0, None)] /\
    only (fun o => negb (is_async_op o)) t = true.
Proof.
  intros Hh Hsc Hattr Hret Hn.
  destruct (sync_visual_updates_outcome sys self wait_for_materials settle_passes w)
    as (w1 & tm & r & w2 & ts & _ & Hs & Htm & _ & _ & _ & _ & _ & Hout).
  assert (Hloop : exists t2,
             r = Raise (Exn OtherException
                          ("'" +:+ type_name +:+ "' object has no attribute 'values'")) /\
             ts = EvCall (SceneUpdate 0) None :: t2 /\ tidy is_sim_op t2).
  { revert Hs. unfold _settle_renderer_frames. rewrite Hh, Hsc. cbn zeta.
    destruct (Z.to_nat (Z.max 0 settle_passes)) as [|n] eqn:Hpasses; [lia|].
    destruct (settle_loop_without_values sc (sim h) type_name n w1 Hattr (Hret w1))
      as (w' & t2 & -> & Ht2).
    intros [= <- _ <-]. eauto. }
  destruct Hloop as (t2 & -> & -> & [Ht2 _]). destruct Htm as [Htm _].
  exists w2, (tm ++ EvCall (SceneUpdate 0) None :: t2). split; [exact Hout|]. split.
  - rewrite scene_updates_app, scene_updates_call.
    rewrite (only_no_scene_updates is_material_op tm), (only_no_scene_updates is_sim_op t2);
      try assumption; try (now intros []). reflexivity.
  - rewrite only_app. apply andb_true_iff. split.
    + apply (only_weaken is_material_op); [now intros []|exact Htm].
    + change (EvCall (SceneUpdate 0) None :: t2) with ([EvCall (SceneUpdate 0) None] ++ t2).
      rewrite only_app. apply andb_true_iff. split; [reflexivity|].
      apply (only_weaken is_sim_op); [now intros []|exact Ht2].
Qed.



(** C7. Called with [wait_for_materials = False] the barrier neither
    imports the material library nor calls anything of it. *)
Theorem no_material_wait_unless_asked self (settle_passes : Z) w :
  only (fun o => negb (is_material_op o))
       (snd (_sync_visual_updates sys self false settle_passes w)) = true.
Proof.
  destruct (sync_visual_updates_outcome sys self false settle_passes w)
    as (w1 & tm & r & w2 & ts & _ & _ & _ & Hoff & [Hts _] & _ & _ & _ & Hout).
  rewrite (Hoff eq_refl) in Hout. cbn [app] in Hout.
  assert (Hsettle : only (fun o => negb (is_material_op o)) ts = true).
  { apply (only_weaken is_settle_op); [now intros []|exact Hts]. }
  destruct r as [[]|e].
  - destruct Hout as (w3 & ra & ta & _ & [Hta _] & ->). cbn [snd]. rewrite only_app.
    apply andb_true_iff. split; [exact Hsettle|].
    apply (only_weaken is_async_op); [now intros []|exact Hta].
  - rewrite Hout. exact Hsettle.
Qed.

(** Called with [wait_for_materials = True] the barrier begins by the
    import of the material library. *)
Lemma material_wait_when_asked self (settle_passes : Z) w :
  exists r t,
    snd (_sync_visual_updates sys self true settle_passes w) =
      EvCall ImportMaterialLibrary r :: t.
Proof.
  destruct (wait_for_material_library_head sys self w) as (r & t & Hhead).
  unfold _sync_visual_updates. unfold bind at 1.
  destruct (_wait_for_material_library sys self w) as [[[[]|e] w1] tm];
    cbn [snd] in Hhead; subst tm.
  - match goal with |- context [bind ?m ?k w1] => destruct (bind m k w1) as [[res w2] t2] end.
    simpl. eauto.
  - simpl. eauto.
Qed.

(** Every operation that raised is followed at once by the record of
    its handler, at the level [code_level] gives. *)
Lemma failures_logged_code_level self (wait_for_materials : bool) (settle_passes : Z) w :
  failures_logged code_level
    (snd (_sync_visual_updates sys self wait_for_materials settle_passes w)) = true.
Proof.
  destruct (sync_visual_updates_outcome sys self wait_for_materials settle_passes w)
    as (w1 & tm & r & w2 & ts & _ & _ & [_ Htm] & _ & [_ Hts] & _ & _ & _ & Hout).
  destruct r as [[]|e].
  - destruct Hout as (w3 & ra & ta & _ & [_ Hta] & ->). cbn [snd].
    auto using failures_logged_app.
  - rewrite Hout. cbn [snd]. auto using failures_logged_app.
Qed.

(** C9, amended. An exception raised by the scene update, by the sim (its
    two queries and [render]) or by a sensor update is logged at debug
    level.  An exception other than an [ImportError] raised while waiting
    for the material library or for the async engine is logged at warning
    level, and an [ImportError] raised by one of the two imports at debug
    level.  The record follows the failed operation at once and the
    barrier goes on; with an instance that is proper it returns. *)
Theorem failures_logged_by_phase self (wait_for_materials : bool) (settle_passes : Z) w :
  (proper self ->
   fst (fst (_sync_visual_updates sys self wait_for_materials settle_passes w)) = Ok tt) /\
  failures_logged amended_level
    (snd (_sync_visual_updates sys self wait_for_materials settle_passes w)) = true.
Proof.
  split.
  - intros Hp.
    destruct (sync_visual_updates_returns sys self wait_for_materials settle_passes w Hp)
      as (? & ? & ? & ? & ? & ? & ? & _ & _ & _ & -> & _).
    reflexivity.
  - apply (failures_logged_weaken code_level); [|apply failures_logged_code_level].
    intros o e l. unfold amended_level, code_level.
    destruct (is_settle_op o); [auto|].
    destruct (exn_class_of e); [|auto]. destruct (is_import o); [auto|discriminate].
Qed.

(** C10. An operation on an instance that satisfies [seed_inv] (a
    generator only with a seed) leaves one that satisfies it.  Every
    operation returns, the barrier and its settle loop when the instance is
    proper; nothing else than these two can raise.  [__init__] gives an
    instance that satisfies the invariant whatever it is applied to.
    Hence the invariant holds after construction followed by any
    operations, which return when the handlers bound on the way are
    proper. *)
Theorem seed_inv_preserved (m : method W V) self w
    (seed0 : option Z) (kw : gmap string V) (ms : list (method W V)) w0 :
  seed_inv self = true ->
  ((is_barrier m = false \/ proper self) ->
   exists self' w' t, run_method sys m self w = (Ok self', w', t) /\ seed_inv self' = true) /\
  (forall self' w' t, run_method sys m self w = (Ok self', w', t) -> seed_inv self' = true) /\
  (forall e w' t, run_method sys m self w = (Raise e, w', t) -> is_barrier m = true) /\
  (Forall tame ms ->
   exists self' w' t,
     (let* a := __init__ seed0 kw in run_methods sys ms a) w0 = (Ok self', w', t) /\
     seed_inv self' = true) /\
  (forall self' w' t,
     (let* a := __init__ seed0 kw in run_methods sys ms a) w0 = (Ok self', w', t) ->
     seed_inv self' = true).
Proof.
  intros Hinv.
  destruct (run_method_step sys m self w Hinv) as (r & w1 & t1 & Hrun & Hr).
  split; [|split; [|split; [|split]]].
  - intros Hwf. destruct r as [self'|e]; [exists self', w1, t1; tauto|].
    destruct Hr as [Hb Hnp]. destruct Hwf as [Hnb|Hp]; [congruence|contradiction].
  - intros self' w' t Hok. rewrite Hrun in Hok. injection Hok as -> _ _. apply Hr.
  - intros e w' t Hraise. rewrite Hrun in Hraise. injection Hraise as -> _ _. apply Hr.
  - assert (Hseq : forall (ms : list (method W V)) a wa,
               seed_inv a = true -> proper a -> Forall tame ms ->
               exists b w' t, run_methods sys ms a wa = (Ok b, w', t) /\ seed_inv b = true).
    { clear. intros ms. induction ms as [|m ms IH]; intros a wa Hi Hp Htame; cbn [run_methods].
      - unfold ret. eauto.
      - apply Forall_cons in Htame as [Hm Hms].
        destruct (run_method_step sys m a wa Hi) as ([a'|e] & w2 & t2 & Hrun & Hr).
        + destruct Hr as [Hi' Hp']. rewrite (bind_ok _ _ _ _ _ _ Hrun).
          destruct (IH a' w2 Hi' (Hp' Hm Hp) Hms) as (b & w3 & t3 & -> & Hb). eauto.
        + destruct Hr as [_ Hnp]. contradiction. }
    intros Htame. destruct (init_returns seed0 kw w0) as (a & wa & Ha & Hi).
    rewrite (bind_ok _ _ _ _ _ _ Ha).
    destruct (Hseq ms a wa Hi (init_proper _ _ _ _ _ _ Ha) Htame) as (b & w' & t & -> & Hb).
    eauto.
  - assert (Hseq : forall (ms : list (method W V)) a wa b w' t,
               seed_inv a = true ->
               run_methods sys ms a wa = (Ok b, w', t) -> seed_inv b = true).
    { clear. intros ms. induction ms as [|m ms IH]; intros a wa b w' t Hi; cbn [run_methods].
      - unfold ret. intros [= <- _ _]. exact Hi.
      - destruct (run_method_step sys m a wa Hi) as ([a'|e] & w2 & t2 & Hrun & Hr).
        + destruct Hr as [Hi' _]. rewrite (bind_ok _ _ _ _ _ _ Hrun).
          destruct (run_methods sys ms a' w2) as [[rb wb] tb] eqn:Hms.
          intros [= -> _ _]. exact (IH a' w2 b wb tb Hi' Hms).
        + rewrite (bind_raise _ _ _ _ _ _ Hrun). discriminate. }
    intros self' w' t. destruct (init_returns seed0 kw w0) as (a & wa & Ha & Hi).
    rewrite (bind_ok _ _ _ _ _ _ Ha).
    destruct (run_methods sys ms a wa) as [[rb wb] tb] eqn:Hms.
    intros [= -> _ _]. exact (Hseq ms a wa self' wb tb Hi Hms).
Qed.

End BarrierClaims.

(** ** The model at work *)

Section Examples.

Import Demo.

(** Seeded with 42, whatever came before. *)
Example seeded_run_42 :
  fst (fst (seeded_run (V:=unit) (Some 5) ∅ 42 [8; 8; 64] w0)) = Ok [145; 57; 7615522811268512075] /\
  fst (fst (seeded_run (V:=unit) None ∅ (-42) [8; 8; 64] w0)) = Ok [145; 57; 7615522811268512075].
Proof. split; vm_compute; reflexivity. Qed.

(** Five passes asked, the second scene update raises: two attempts, the
    sensors updated once, the failing sensor not in the way of the third,
    the material wait and the flush on both sides. *)
Example barrier_on_stage_2 :
  _sync_visual_updates kit (on_stage 2) true 5 w0 =
    (Ok tt, {| g_inst := 7; objs := []; host := 1%nat |},
     [EvCall ImportMaterialLibrary None;
      EvCall MatlibGetInstance None;
      EvCall (InstanceWait "wait_for_pending_compile") None;
      EvCall (SceneUpdate 0) None;
      EvCall SimHasGui None;
      EvCall SimRender None;
      EvCall (SensorUpdate "cam1" 0) None;
      EvCall (SensorUpdate "cam2" 0) (Some (Exn OtherException "lens cap on"));
      EvLog DEBUG "Sensor update during settle failed: lens cap on";
      EvCall (SensorUpdate "cam3" 0) None;
      EvCall (SceneUpdate 0) (Some (Exn OtherException "physics stepped on a rake"));
      EvLog DEBUG "Scene update during settle failed: physics stepped on a rake";
      EvCall ImportAsyncEngine None;
      EvCall GetAsyncEngine None;
      EvCall WaitForTasks (Some (Exn OtherException "queue stuck"));
      EvLog WARNING "Failed to wait for async tasks: queue stuck"]).
Proof. reflexivity. Qed.

(** A scene without the attribute [sensors], under a sim whose query raises. *)
Example barrier_without_sensors :
  _sync_visual_updates headless
    (bind_handler blank
       (Some {| scene := Some {| scene_update := fun _ => tick;
                                 scene_sensors := fun _ => NoAttribute |};
                sim := Some {| has_gui := boom "no display"; has_rtx_sensors := answer true;
                               render := noop |} |}))
    false 2 w0 =
    (Ok tt, {| g_inst := 7; objs := []; host := 2%nat |},
     [EvCall (SceneUpdate 0) None;
      EvCall SimHasGui (Some (Exn OtherException "no display"));
      EvLog DEBUG "Sim render during settle failed: no display";
      EvCall (SceneUpdate 0) None;
      EvCall SimHasGui (Some (Exn OtherException "no display"));
      EvLog DEBUG "Sim render during settle failed: no display";
      EvCall ImportAsyncEngine (Some (Exn ImportError "No module named 'omni'"));
      EvLog DEBUG "Omniverse async engine not available; skipping wait_for_tasks"]).
Proof. reflexivity. Qed.

(** No handler, a handler without scene, a negative number of passes. *)
Example barrier_without_scene :
  snd (_sync_visual_updates headless blank true 3 w0) =
    [EvCall ImportMaterialLibrary (Some (Exn ImportError "No module named 'omni'"));
     EvLog DEBUG "Material library not available; skipping wait";
     EvCall ImportAsyncEngine (Some (Exn ImportError "No module named 'omni'"));
     EvLog DEBUG "Omniverse async engine not available; skipping wait_for_tasks"] /\
  snd (_sync_visual_updates headless
         (bind_handler blank (Some {| scene := None; sim := Some gui_sim |})) false 3 w0) =
    [EvCall ImportAsyncEngine (Some (Exn ImportError "No module named 'omni'"));
     EvLog DEBUG "Omniverse async engine not available; skipping wait_for_tasks"] /\
  scene_updates (snd (_sync_visual_updates headless (on_stage 0) false (-2) w0)) = [].
Proof. repeat split; vm_compute; reflexivity. Qed.

(** A scene whose attribute [sensors] is [None]: the first pass raises
    after the scene update and the render, and the barrier with it; the
    material wait was made, the flush is not. *)
Example barrier_with_sensors_none :
  _sync_visual_updates kit on_bare_stage true 3 w0 =
    (Raise (Exn OtherException "'NoneType' object has no attribute 'values'"),
     {| g_inst := 7; objs := []; host := 1%nat |},
     [EvCall ImportMaterialLibrary None;
      EvCall MatlibGetInstance None;
      EvCall (InstanceWait "wait_for_pending_compile") None;
      EvCall (SceneUpdate 0) None;
      EvCall SimHasGui None;
      EvCall SimRender None]).
Proof. reflexivity. Qed.

(** A dict of sensors that grows while it is iterated over: the iteration
    raises when it asks for the next sensor. *)
Example barrier_with_growing_sensors :
  _sync_visual_updates headless on_growing_stage false 2 w0 =
    (Raise (Exn OtherException "dictionary changed size during iteration"),
     {| g_inst := 7; objs := []; host := 1%nat |},
     [EvCall (SceneUpdate 0) None;
      EvCall (SensorUpdate "cam1" 0) None]).
Proof. reflexivity. Qed.

(** C8. The settle phase does not always make [max(0, settle_passes)]
    scene updates when none of them raises.  With three passes asked over
    a scene whose attribute [sensors] is [None] and whose update returns,
    the phase raises in its first pass, at [sensors.values()]: one scene
    update was made, as the trace and the host state tell, and it
    returned; the barrier makes no more. *)
Theorem settle_stops_after_one_update :
  _settle_renderer_frames on_bare_stage 3 w0 =
    (Raise (Exn OtherException "'NoneType' object has no attribute 'values'"),
     {| g_inst := 7; objs := []; host := 1%nat |},
     [EvCall (SceneUpdate 0) None; EvCall SimHasGui None; EvCall SimRender None]) /\
  scene_updates_returned (snd (_settle_renderer_frames on_bare_stage 3 w0)) = true /\
  scene_updates (snd (_settle_renderer_frames on_bare_stage 3 w0)) = [(0, None)] /\
  scene_updates (snd (_sync_visual_updates headless on_bare_stage false 3 w0)) = [(0, None)] /\
  replicate (Z.to_nat (Z.max 0 3)) (0, @None exn) = [(0, None); (0, None); (0, None)].
Proof.
  split; [reflexivity|]. split; [vm_compute; reflexivity|].
  split; [vm_compute; reflexivity|]. split; vm_compute; reflexivity.
Qed.

End Examples.

(** ** Instances of the conditional statements, and the refuted one *)

Lemma sensors_without_values_raise_witness :
  handler Demo.on_bare_stage = Some Demo.bare_stage /\
  scene Demo.bare_stage = Some Demo.bare_set /\
  (forall w1, scene_sensors Demo.bare_set w1 = NotADict "NoneType") /\
  (forall w1, returned (fst (scene_update Demo.bare_set 0 w1)) = true) /\
  1 <= 3 /\
  exists w' t,
    _sync_visual_updates Demo.kit Demo.on_bare_stage true 3 Demo.w0 =
      (Raise (Exn OtherException "'NoneType' object has no attribute 'values'"), w', t) /\
    scene_updates t = [(0, None)] /\
    only (fun o => negb (is_async_op o)) t = true.
Proof.
  split; [reflexivity|]. split; [reflexivity|]. split; [reflexivity|].
  split; [reflexivity|]. split; [lia|].
  apply (sensors_without_values_raise Demo.kit Demo.on_bare_stage Demo.bare_stage
           Demo.bare_set "NoneType" true 3 Demo.w0); (reflexivity || lia).
Defined.


Lemma rng_lazy_init_witness :
  _rng Demo.blank = None /\
  exists (r : ref) (s : Z) self' w',
    rng Demo.blank Demo.w0 = (Ok (Some r, self'), w', []) /\
    seed self' = Some s /\
    rng self' w' = (Ok (Some r, self'), w', []).
Proof.
  split; [reflexivity|].
  destruct (rng_lazy_init Demo.blank Demo.w0 eq_refl)
    as (_ & r & s & self' & w' & H1 & _ & H2 & _ & _ & _ & H3).
  exists r, s, self', w'. auto.
Defined.


Lemma failures_logged_by_phase_witness :
  proper (Demo.on_stage 1) /\
  fst (fst (_sync_visual_updates Demo.kit (Demo.on_stage 1) false 1 Demo.w0)) = Ok tt /\
  failures_logged amended_level
    (snd (_sync_visual_updates Demo.kit (Demo.on_stage 1) false 1 Demo.w0)) = true.
Proof.
  assert (Hp : proper (Demo.on_stage 1)) by (exists Demo.cams; intros w w'; reflexivity).
  split; [exact Hp|].
  destruct (failures_logged_by_phase Demo.kit (Demo.on_stage 1) false 1 Demo.w0)
    as [Hret Hlog].
  split; [exact (Hret Hp)|exact Hlog].
Defined.

Lemma seed_inv_preserved_witness :
  seed_inv (Demo.on_stage 2) = true /\
  proper (Demo.on_stage 2) /\
  Forall (tame (V:=unit))
    [Get_rng; Bind_handler (Some (Demo.stage 2)); Sync_visual_updates true 2] /\
  (exists self' w' t,
     run_method Demo.kit (Sync_visual_updates true 2) (Demo.on_stage 2) Demo.w0
       = (Ok self', w', t) /\
     seed_inv self' = true) /\
  (exists (self' : BaseRandomizerType nat unit) w' t,
     (let* a := __init__ None ∅ in
      run_methods Demo.kit
        [Get_rng; Bind_handler (Some (Demo.stage 2)); Sync_visual_updates true 2] a) Demo.w0
       = (Ok self', w', t) /\
     seed_inv self' = true).
Proof.
  assert (Hp : proper (Demo.on_stage 2)) by (exists Demo.cams; intros w w'; reflexivity).
  assert (Ht : Forall (tame (V:=unit))
                 [Get_rng; Bind_handler (Some (Demo.stage 2)); Sync_visual_updates true 2])
    by (repeat constructor; exact Hp).
  split; [reflexivity|]. split; [exact Hp|]. split; [exact Ht|].
  destruct (seed_inv_preserved Demo.kit (Sync_visual_updates true 2) (Demo.on_stage 2) Demo.w0
              None ∅ [Get_rng; Bind_handler (Some (Demo.stage 2)); Sync_visual_updates true 2]
              Demo.w0 eq_refl) as (Hone & _ & _ & Hall & _).
  split; [exact (Hone (or_intror Hp))|exact (Hall Ht)].
Defined.

(** C9 as the specification has it fails: the scene update of this run
    raises, and the record that follows is at debug level, not warning. *)
Lemma spec_levels_refuted :
  snd (_sync_visual_updates Demo.kit (Demo.on_stage 1) false 1 Demo.w0) =
    [EvCall (SceneUpdate 0) (Some (Exn OtherException "physics stepped on a rake"));
     EvLog DEBUG "Scene update during settle failed: physics stepped on a rake";
     EvCall ImportAsyncEngine None;
     EvCall GetAsyncEngine None;
     EvCall WaitForTasks (Some (Exn OtherException "queue stuck"));
     EvLog WARNING "Failed to wait for async tasks: queue stuck"] /\
  failures_logged spec_level
    (snd (_sync_visual_updates Demo.kit (Demo.on_stage 1) false 1 Demo.w0)) = false.
Proof. split; vm_compute; reflexivity. Qed.

(** ** More on the seeded generator *)

Section SeedMore.

Context {R : RandomLib} {W V : Type}.
Implicit Types (self : BaseRandomizerType W V) (w : World W) (kw : gmap string V).

Lemma advance_app (g : mt_state) ks1 ks2 :
  advance g (ks1 ++ ks2) = advance (advance g ks1) ks2.
Proof. revert g; induction ks1 as [|k ks1 IH]; intros g; simpl; auto. Qed.

(** The first draw through [rng] of an instance without generator seeds
    it; the draws are then those of the new generator. *)
Lemma rng_draws_absent self (k : Z) ks w :
  _rng self = None ->
  rng_draws self (k :: ks) w =
    (Ok (stream (Random (resolved_seed (_seed self) w)) (k :: ks),
         with_rng (with_seed self (Some (resolved_seed (_seed self) w)))
                  (Some (length (objs w)))),
     with_objs (after_resolve (_seed self) w)
               (objs w ++ [advance (Random (resolved_seed (_seed self) w)) (k :: ks)]),
     []).
Proof.
  intros Hr.
  set (s := resolved_seed (_seed self) w).
  set (self1 := with_rng (with_seed self (Some s)) (Some (length (objs w)))).
  set (w1 := with_objs (after_resolve (_seed self) w) (objs w ++ [Random s])).
  assert (Hsame : rng_draws self (k :: ks) w = rng_draws self1 (k :: ks) w1).
  { cbn [rng_draws].
    rewrite (bind_ok _ _ _ _ _ _ (rng_absent self w Hr)).
    rewrite (bind_ok _ _ _ _ _ _ (rng_present self1 (length (objs w)) w1 eq_refl)).
    reflexivity. }
  rewrite Hsame.
  rewrite (rng_draws_eq self1 (length (objs w)) (k :: ks) w1 (Random s) eq_refl).
  2: { subst w1. simpl. apply list_lookup_middle. reflexivity. }
  subst w1. rewrite with_objs_twice. cbn [objs with_objs].
  rewrite insert_app_r_alt, Nat.sub_diag by lia. reflexivity.
Qed.

(** X11. An unseeded randomizer takes its seed from the module-level generator
    at the first draw, and only then: however many draws follow, that
    generator gave exactly one value of 64 bits, which is the seed, and
    the draws are those of a generator seeded with it.  Without a draw
    nothing is derived. *)
Theorem unseeded_draws_consume_one_seed kw (k : Z) (ks : list Z) w :
  (exists a w',
     constructed_run None kw (k :: ks) w =
       (Ok (stream (Random (fst (getrandbits 64 (g_inst w)))) (k :: ks), a), w', []) /\
     seed a = Some (fst (getrandbits 64 (g_inst w))) /\
     g_inst w' = snd (getrandbits 64 (g_inst w)) /\
     host w' = host w) /\
  (exists a, constructed_run None kw [] w = (Ok ([], a), w, []) /\ seed a = None).
Proof.
  split.
  - unfold constructed_run. cbn [__init__].
    erewrite bind_ok by reflexivity.
    rewrite rng_draws_absent by reflexivity.
    do 2 eexists. split; [reflexivity|]. repeat split.
  - eexists. split; reflexivity.
Qed.

(** X12. A randomizer constructed with a seed and reseeded with another never
    touches the module-level generator nor anything else of the process:
    each seeding allocates one generator, and the draws before and after
    the reseeding are those of generators seeded with the two seeds. *)
Theorem explicit_seed_leaves_module_generator (s0 : Z) kw (ks0 : list Z) (s : Z)
    (ks : list Z) w :
  reseed_run (Some s0) kw ks0 s ks w =
    (Ok (stream (Random s0) ks0, stream (Random s) ks),
     with_objs w (objs w ++ [advance (Random s0) ks0; advance (Random s) ks]),
     []).
Proof.
  unfold reseed_run. cbn [__init__].
  set (blank := {| handler := None; randomizer_options := kw; _seed := None; _rng := None |}).
  pose proof (set_seed_then_draws blank s0 ks0 w) as H0.
  unfold bind in H0 |- *.
  destruct (set_seed blank (Some s0) w) as [[[a1|e] w1] t1]; [|discriminate].
  destruct (rng_draws a1 ks0 w1) as [[[q0|e] w2] t2]; [|discriminate].
  injection H0 as -> -> Ht. apply app_eq_nil in Ht as [-> ->]. cbn [fst snd].
  set (a2 := with_rng _ _). set (w2 := with_objs w _).
  pose proof (set_seed_then_draws a2 s ks w2) as H1.
  unfold bind in H1.
  destruct (set_seed a2 (Some s) w2) as [[[a3|e] w3] t3]; [|discriminate].
  destruct (rng_draws a3 ks w3) as [[[q|e] w4] t4]; [|discriminate].
  injection H1 as -> -> Ht. apply app_eq_nil in Ht as [-> ->].
  subst w2. cbn [fst snd ret app with_objs objs]. rewrite <- app_assoc. reflexivity.
Qed.

(** X13. [set_seed] replaces the generator, it does not reseed it in place:
    a caller that kept the generator of before goes on drawing the stream
    of the first seed, while the randomizer draws the stream of the new
    seed, and neither disturbs the other. *)
Theorem stale_generator_keeps_old_stream (s0 : Z) kw (ks0 : list Z) (s1 : Z)
    (ks ks1 : list Z) w :
  fst (fst (stale_handle_run s0 kw ks0 s1 ks ks1 w)) =
    Ok (stream (Random s0) (ks0 ++ ks1), stream (Random s1) ks).
Proof.
  unfold stale_handle_run. cbn [__init__].
  erewrite bind_ok by apply set_seed_eq.
  cbn [resolved_seed after_resolve].
  set (r0 := length (objs w)).
  set (a1 := with_rng _ (Some r0)).
  set (w1 := with_objs w _).
  assert (H1 : objs w1 !! r0 = Some (Random s0)).
  { subst w1 r0. simpl. apply list_lookup_middle. reflexivity. }
  assert (Hr0 : (r0 < length (objs w1))%nat) by (eapply lookup_lt_Some; eauto).
  erewrite bind_ok by (apply (rng_present a1 r0); reflexivity).
  cbn [fst snd].
  erewrite bind_ok by (apply draws_eq; exact H1).
  set (w2 := with_objs w1 _).
  assert (Hlen2 : length (objs w2) = length (objs w1)).
  { subst w2. simpl. apply length_insert. }
  assert (H2 : objs w2 !! r0 = Some (advance (Random s0) ks0)).
  { subst w2. simpl. now apply list_lookup_insert_eq. }
  clearbody w2.
  erewrite bind_ok by apply set_seed_eq.
  cbn [resolved_seed after_resolve].
  set (a2 := with_rng _ (Some (length (objs w2)))).
  set (w3 := with_objs w2 _).
  erewrite bind_ok.
  2: { apply (rng_draws_eq a2 (length (objs w2)) ks w3 (Random s1)); [reflexivity|].
       subst w3. simpl. apply list_lookup_middle. reflexivity. }
  set (w4 := with_objs w3 _).
  assert (H4 : objs w4 !! r0 = Some (advance (Random s0) ks0)).
  { subst w4 w3. simpl. rewrite list_lookup_insert_ne by lia.
    rewrite lookup_app_l by lia. exact H2. }
  erewrite bind_ok by (apply draws_eq; exact H4).
  simpl. now rewrite stream_app.
Qed.

End SeedMore.

(** ** More on the barrier *)


Section BarrierMore.

Context {R : RandomLib} {W V : Type}.
Variable sys : Imports W.
Implicit Types (self : BaseRandomizerType W V) (w : World W).

(** *** The async flush, case by case *)

Lemma wait_for_async_engine_cases self w :
  exists w',
    _wait_for_async_engine sys self w = (Ok tt, w', succeeded async_ops) \/
    exists (k : nat) o e,
      async_ops !! k = Some o /\
      _wait_for_async_engine sys self w =
        (Ok tt, w', succeeded (take k async_ops) ++ [EvCall o (Some e); async_failure_record e]).
Proof.
  unfold _wait_for_async_engine, try_except, bind, invoke, async_failure_record.
  destruct (import_get_async_engine sys w) as [[get_engine|e] w1].
  - destruct (get_engine w1) as [[engine|e] w2].
    + destruct (wait_for_tasks engine w2) as [[[]|e] w3].
      * exists w3. left. reflexivity.
      * exists w3. right. exists 2%nat, WaitForTasks, e. split; [reflexivity|].
        destruct (exn_class_of e); reflexivity.
    + exists w2. right. exists 1%nat, GetAsyncEngine, e. split; [reflexivity|].
      destruct (exn_class_of e); reflexivity.
  - exists w1. right. exists 0%nat, ImportAsyncEngine, e. split; [reflexivity|].
    destruct (exn_class_of e); reflexivity.
Qed.

(** *** The material wait, case by case *)

Lemma material_handler (e : exn) w :
  match exn_class_of e with
  | ImportError => logger_debug "Material library not available; skipping wait"
  | OtherException => logger_warning ("Failed to wait for material refreshes: " +:+ exn_str e)
  end w = (Ok tt, w, [material_failure_record e]).
Proof. unfold material_failure_record. destruct (exn_class_of e); reflexivity. Qed.

(** The loop over the candidate names calls the first callable one, and
    only that one. *)
Lemma probe_wait_methods_cases (instance : MatInstance W) names w :
  match find (callable instance) names with
  | None => probe_wait_methods instance names w = (Ok false, w, [])
  | Some name =>
      In name names /\
      exists wait_method,
        instance_attr instance name = Some wait_method /\
        probe_wait_methods instance names w =
          match wait_method w with
          | (Ok _, w') => (Ok true, w', [EvCall (InstanceWait name) None])
          | (Raise e, w') => (Raise e, w', [EvCall (InstanceWait name) (Some e)])
          end
  end.
Proof.
  induction names as [|name names IH]; cbn [find probe_wait_methods]; [reflexivity|].
  unfold callable at 1. destruct (instance_attr instance name) as [wait_method|] eqn:Hattr.
  - split; [now left|]. exists wait_method. split; [exact Hattr|].
    unfold bind, invoke, ret. destruct (wait_method w) as [[[]|e] w']; reflexivity.
  - destruct (find (callable instance) names) as [name'|]; [|exact IH].
    destruct IH as (Hin & f & Hf & Hrun). split; [now right|]. eauto.
Qed.

Lemma material_import_failed self w e w1 :
  import_material_library sys w = (Raise e, w1) ->
  _wait_for_material_library sys self w =
    (Ok tt, w1, [EvCall ImportMaterialLibrary (Some e); material_failure_record e]).
Proof.
  intros Himp. unfold _wait_for_material_library, try_except, bind, invoke.
  rewrite Himp. now rewrite material_handler.
Qed.

Lemma material_module_wait self w matlib w1 wait_fn :
  import_material_library sys w = (Ok matlib, w1) ->
  wait_for_pending_refreshes matlib = Some wait_fn ->
  _wait_for_material_library sys self w =
    match wait_fn w1 with
    | (Ok _, w2) => (Ok tt, w2, succeeded [ImportMaterialLibrary; MatlibWaitFn])
    | (Raise e, w2) =>
        (Ok tt, w2,
         succeeded [ImportMaterialLibrary] ++
         [EvCall MatlibWaitFn (Some e); material_failure_record e])
    end.
Proof.
  intros Himp Hfn. unfold _wait_for_material_library, try_except, bind, invoke.
  rewrite Himp, Hfn. destruct (wait_fn w1) as [[[]|e] w2]; [reflexivity|].
  now rewrite material_handler.
Qed.

Lemma material_nothing self w matlib w1 :
  import_material_library sys w = (Ok matlib, w1) ->
  wait_for_pending_refreshes matlib = None ->
  get_instance matlib = None ->
  _wait_for_material_library sys self w =
    (Ok tt, w1, succeeded [ImportMaterialLibrary] ++ [no_api_record]).
Proof.
  intros Himp Hfn Hget. unfold _wait_for_material_library, try_except, bind, invoke.
  rewrite Himp, Hfn, Hget. reflexivity.
Qed.

Lemma material_get_instance_failed self w matlib w1 get_inst e w2 :
  import_material_library sys w = (Ok matlib, w1) ->
  wait_for_pending_refreshes matlib = None ->
  get_instance matlib = Some get_inst ->
  get_inst w1 = (Raise e, w2) ->
  _wait_for_material_library sys self w =
    (Ok tt, w2,
     succeeded [ImportMaterialLibrary] ++
     [EvCall MatlibGetInstance (Some e); material_failure_record e]).
Proof.
  intros Himp Hfn Hget Hinst. unfold _wait_for_material_library, try_except, bind, invoke.
  rewrite Himp, Hfn, Hget, Hinst. now rewrite material_handler.
Qed.

Lemma material_instance self w matlib w1 get_inst instance w2 :
  import_material_library sys w = (Ok matlib, w1) ->
  wait_for_pending_refreshes matlib = None ->
  get_instance matlib = Some get_inst ->
  get_inst w1 = (Ok instance, w2) ->
  match first_callable instance with
  | None =>
      _wait_for_material_library sys self w =
        (Ok tt, w2, succeeded [ImportMaterialLibrary; MatlibGetInstance] ++ [no_api_record])
  | Some name =>
      In name wait_method_names /\
      exists wait_method,
        instance_attr instance name = Some wait_method /\
        _wait_for_material_library sys self w =
          match wait_method w2 with
          | (Ok _, w3) =>
              (Ok tt, w3,
               succeeded [ImportMaterialLibrary; MatlibGetInstance; InstanceWait name])
          | (Raise e, w3) =>
              (Ok tt, w3,
               succeeded [ImportMaterialLibrary; MatlibGetInstance] ++
               [EvCall (InstanceWait name) (Some e); material_failure_record e])
          end
  end.
Proof.
  intros Himp Hfn Hget Hinst.
  pose proof (probe_wait_methods_cases instance wait_method_names w2) as Hprobe.
  unfold first_callable.
  destruct (find (callable instance) wait_method_names) as [name|].
  - destruct Hprobe as (Hin & wait_method & Hattr & Hrun).
    split; [exact Hin|]. exists wait_method. split; [exact Hattr|].
    unfold _wait_for_material_library, try_except, bind, invoke.
    rewrite Himp, Hfn, Hget, Hinst, Hrun.
    destruct (wait_method w2) as [[[]|e] w3]; [reflexivity|].
    now rewrite material_handler.
  - unfold _wait_for_material_library, try_except, bind, invoke.
    rewrite Himp, Hfn, Hget, Hinst, Hprobe. reflexivity.
Qed.

Lemma wait_for_material_library_cases self w :
  exists w' t, _wait_for_material_library sys self w = (Ok tt, w', t) /\ material_trace t.
Proof.
  destruct (import_material_library sys w) as [[matlib|e] w1] eqn:Himp.
  2: { rewrite (material_import_failed self w e w1 Himp). eauto using material_trace. }
  destruct (wait_for_pending_refreshes matlib) as [wait_fn|] eqn:Hfn.
  { rewrite (material_module_wait self w matlib w1 wait_fn Himp Hfn).
    destruct (wait_fn w1) as [[[]|e] w2]; eauto using material_trace. }
  destruct (get_instance matlib) as [get_inst|] eqn:Hget.
  2: { rewrite (material_nothing self w matlib w1 Himp Hfn Hget). eauto using material_trace. }
  destruct (get_inst w1) as [[instance|e] w2] eqn:Hinst.
  2: { rewrite (material_get_instance_failed self w matlib w1 get_inst e w2 Himp Hfn Hget Hinst).
       eauto using material_trace. }
  pose proof (material_instance self w matlib w1 get_inst instance w2 Himp Hfn Hget Hinst) as H.
  destruct (first_callable instance) as [name|].
  - destruct H as (Hin & wait_method & _ & ->).
    destruct (wait_method w2) as [[[]|e] w3]; eauto using material_trace.
  - rewrite H. eauto using material_trace.
Qed.

(** *** The records of the two waits *)

Lemma async_import_failed self w e w1 :
  import_get_async_engine sys w = (Raise e, w1) ->
  _wait_for_async_engine sys self w =
    (Ok tt, w1, [EvCall ImportAsyncEngine (Some e); async_failure_record e]).
Proof.
  intros Himp. unfold _wait_for_async_engine, try_except, bind, invoke, async_failure_record.
  rewrite Himp. destruct (exn_class_of e); reflexivity.
Qed.

Lemma material_trace_warnings t :
  material_trace t -> forall prev, warnings_after prev t = true.
Proof.
  intros Ht prev.
  destruct Ht; cbn; unfold material_failure_record, is_import_error, warning_text;
    try (destruct (exn_class_of e) eqn:Hc; cbn; rewrite ?Hc; cbn);
    rewrite ?String.eqb_refl; reflexivity.
Qed.

Lemma async_trace_warnings self w prev :
  warnings_after prev (snd (_wait_for_async_engine sys self w)) = true.
Proof.
  destruct (wait_for_async_engine_cases self w) as (w' & [->|(k & o & e & Hk & ->)]);
    [reflexivity|].
  destruct k as [|[|[|k]]]; cbn in Hk; try discriminate; injection Hk as <-;
    cbn; unfold async_failure_record, is_import_error, warning_text;
    destruct (exn_class_of e) eqn:Hc; cbn; rewrite ?Hc; cbn;
    rewrite ?String.eqb_refl; reflexivity.
Qed.

(** *** Counting the scene updates *)

Lemma try_render_quiet (c : World W -> nat) (sm : option (Sim W)) w :
  quiet_sim c sm -> c (snd (fst (try_render sm w))) = c w.
Proof.
  destruct sm as [s|]; [|reflexivity]. intros (Hg & Hx & Hr). rewrite try_render_cases.
  pose proof (Hg w) as H1.
  destruct (has_gui s w) as [[[|]|e] w1]; cbn [fst snd] in *.
  - pose proof (Hr w1) as H2.
    destruct (render s w1) as [[[]|e] w2]; cbn [fst snd] in *; congruence.
  - pose proof (Hx w1) as H2.
    destruct (has_rtx_sensors s w1) as [[[|]|e] w2]; cbn [fst snd] in *; try congruence.
    pose proof (Hr w2) as H3.
    destruct (render s w2) as [[[]|e] w3]; cbn [fst snd] in *; congruence.
  - exact H1.
Qed.

Lemma completed_updates_pass (t2 t3 t4 : list event) :
  scene_updates t2 = [] -> scene_updates t3 = [] ->
  completed_updates (EvCall (SceneUpdate 0) None :: t2 ++ t3 ++ t4) =
    S (completed_updates t4).
Proof.
  intros H2 H3. unfold completed_updates.
  rewrite scene_updates_call, !scene_updates_app, H2, H3. cbn [app].
  rewrite filter_cons_True by reflexivity. reflexivity.
Qed.

(** With a count of the scene updates that the sim and the sensors leave
    alone, the loop adds to the count the number of scene updates of its
    trace that returned. *)
Lemma settle_loop_counts (c : World W -> nat) (sc : Scene W) (sm : option (Sim W))
    (l : list (string * Sensor W)) :
  steady sc l -> counts_updates c sc -> quiet_sim c sm -> quiet_sensors c l ->
  forall (n : nat) w,
    exists w' t,
      settle_loop sc sm n w = (Ok tt, w', t) /\
      c w' = (c w + completed_updates t)%nat.
Proof.
  intros Hst Hcount Hsim Hsens n. induction n as [|n IH]; intros w; cbn [settle_loop].
  - exists w, []. split; [reflexivity|]. unfold completed_updates. simpl. lia.
  - pose proof (Hcount 0 w) as Hc0. pose proof (try_scene_update_cases sc w) as Hsc.
    destruct (scene_update sc 0 w) as [[[]|e] w1]; cbn [fst snd] in Hc0;
      rewrite (bind_ok _ _ _ _ _ _ Hsc); cbn beta iota.
    + pose proof (try_render_quiet c sm w1 Hsim) as Hc1.
      destruct (try_render_spec sm w1) as (w2 & t2 & Hr & Ht2).
      rewrite Hr in Hc1. cbn [fst snd] in Hc1. rewrite (bind_ok _ _ _ _ _ _ Hr).
      destruct (update_scene_sensors_steady sc l w2 Hst) as (w3 & t3 & Hu & Ht3 & _ & Hc2).
      rewrite (bind_ok _ _ _ _ _ _ Hu).
      destruct (IH w3) as (w4 & t4 & -> & Hc3).
      do 2 eexists. split; [reflexivity|]. cbn [app].
      rewrite completed_updates_pass.
      * rewrite Hc3, (Hc2 c Hsens), Hc1, Hc0. lia.
      * eapply only_no_scene_updates; [|apply Ht2]. now intros [].
      * eapply only_no_scene_updates; [|apply Ht3]. now intros [].
    + do 2 eexists. split; [reflexivity|]. cbn [app]. unfold completed_updates.
      rewrite scene_updates_call. unfold scene_failure_record. rewrite scene_updates_log.
      rewrite filter_cons_False by (simpl; congruence). simpl. lia.
Qed.

End BarrierMore.

(** Membership in a list of operations written out. *)
Ltac absurd_in :=
  let H := fresh in
  intros H; cbn in H; repeat (destruct H as [H|H]; [discriminate H|]); destruct H.

Ltac distinct_ops :=
  repeat (apply NoDup_cons_2;
          [rewrite ?elem_of_cons, elem_of_nil; intuition discriminate|]);
  apply NoDup_nil_2.

Section BarrierProperties.

Context {R : RandomLib} {W V : Type}.
Variable sys : Imports W.
Implicit Types (self : BaseRandomizerType W V) (w : World W).

(** X1. The phases of the barrier run in the order material wait, settle
    loop, async flush, each from the world the phase before left, whatever
    was logged on the way: all the operations on the material library come
    first, then those on the scene, the sim and the sensors, then those on
    the async engine.  The material wait returns; when the settle loop
    raises, the barrier raises the same from the world the loop left and
    the flush is not run; with an instance that is proper the loop
    returns. *)
Theorem phases_in_order self (wait_for_materials : bool) (settle_passes : Z) w :
  exists w1 tm r w2 ts,
    (if wait_for_materials then _wait_for_material_library sys self else ret tt) w
      = (Ok tt, w1, tm) /\
    _settle_renderer_frames self settle_passes w1 = (r, w2, ts) /\
    only is_material_op tm = true /\
    only is_settle_op ts = true /\
    (proper self -> r = Ok tt) /\
    match r with
    | Ok _ =>
        exists w3 ta,
          _wait_for_async_engine sys self w2 = (Ok tt, w3, ta) /\
          _sync_visual_updates sys self wait_for_materials settle_passes w =
            (Ok tt, w3, tm ++ ts ++ ta) /\
          only is_async_op ta = true
    | Raise e =>
        _sync_visual_updates sys self wait_for_materials settle_passes w =
          (Raise e, w2, tm ++ ts)
    end.
Proof.
  destruct (sync_visual_updates_outcome sys self wait_for_materials settle_passes w)
    as (w1 & tm & r & w2 & ts & Hm & Hs & [Htm _] & _ & [Hts _] & _ & _ & _ & Hout).
  exists w1, tm, r, w2, ts. repeat (split; [assumption|]). split.
  - intros Hp. destruct (settle_renderer_frames_proper self settle_passes w1 Hp)
      as (w2' & ts' & Hs').
    rewrite Hs in Hs'. now injection Hs' as -> _ _.
  - destruct r as [[]|e]; [|exact Hout].
    destruct Hout as (w3 & ra & ta & Ha & [Hta _] & Hsync).
    exists w3, (EvCall ImportAsyncEngine ra :: ta). auto.
Qed.

(** X2. With a handler that has a scene whose sensors are a mapping that
    stays as it is, the settle loop returns and leaves a trace of the
    shape [settle_trace]: in each pass the scene update comes first, then
    the operations on the sim, then the update of every sensor of the
    mapping; after a scene update that raised there is its debug record
    and nothing more; and no more than [max(0, settle_passes)] passes. *)
Theorem settle_passes_in_order self h sc (l : list (string * Sensor W))
    (settle_passes : Z) w :
  handler self = Some h ->
  scene h = Some sc ->
  steady sc l ->
  fst (fst (_settle_renderer_frames self settle_passes w)) = Ok tt /\
  settle_trace (sensor_keys l) (Z.to_nat (Z.max 0 settle_passes))
    (snd (_settle_renderer_frames self settle_passes w)).
Proof.
  intros Hh Hsc Hst.
  destruct (settle_renderer_frames_steady self h sc l settle_passes w Hh Hsc Hst)
    as (w' & t & -> & _ & Htrace).
  split; [reflexivity|exact Htrace].
Qed.

(** X3. In a pass, [sim.render()] is attempted exactly when [has_gui()]
    returned true, or returned false and [has_rtx_sensors()] returned
    true; and [has_rtx_sensors()] is asked exactly when [has_gui()]
    returned false.  No operation of the sim is attempted twice. *)
Theorem render_only_when_needed (sm : Sim W) w :
  (In SimRender (ops (snd (try_render (Some sm) w))) <->
     (exists w1, has_gui sm w = (Ok true, w1)) \/
     (exists w1 w2, has_gui sm w = (Ok false, w1) /\ has_rtx_sensors sm w1 = (Ok true, w2))) /\
  (In SimHasRtxSensors (ops (snd (try_render (Some sm) w))) <->
     exists w1, has_gui sm w = (Ok false, w1)) /\
  NoDup (ops (snd (try_render (Some sm) w))).
Proof.
  rewrite try_render_cases.
  destruct (has_gui sm w) as [[[|]|e] w1].
  - assert (Hops : forall out : result unit * World W,
               ops (snd match out with
                        | (Ok _, w2) => (Ok tt, w2, succeeded [SimHasGui; SimRender])
                        | (Raise e, w2) =>
                            (Ok tt, w2,
                             succeeded [SimHasGui] ++
                             [EvCall SimRender (Some e); sim_failure_record e])
                        end) = [SimHasGui; SimRender])
      by (intros [[[]|e] w2]; reflexivity).
    rewrite Hops. split; [|split].
    + split; [intros _; left; eauto | intros _; cbn; auto].
    + split; [absurd_in | intros (w' & [=])].
    + distinct_ops.
  - destruct (has_rtx_sensors sm w1) as [[[|]|e] w2] eqn:Hrtx.
    + assert (Hops : forall out : result unit * World W,
                 ops (snd match out with
                          | (Ok _, w3) =>
                              (Ok tt, w3, succeeded [SimHasGui; SimHasRtxSensors; SimRender])
                          | (Raise e, w3) =>
                              (Ok tt, w3,
                               succeeded [SimHasGui; SimHasRtxSensors] ++
                               [EvCall SimRender (Some e); sim_failure_record e])
                          end) = [SimHasGui; SimHasRtxSensors; SimRender])
        by (intros [[[]|e] w3]; reflexivity).
      rewrite Hops. split; [|split].
      * split; [intros _; right; exists w1, w2; auto | intros _; cbn; auto].
      * split; [intros _; eauto | intros _; cbn; auto].
      * distinct_ops.
    + change (ops (snd (Ok tt, w2, succeeded [SimHasGui; SimHasRtxSensors])))
        with [SimHasGui; SimHasRtxSensors].
      split; [|split].
      * split; [absurd_in|].
        intros [(w' & [=])|(w' & w'' & [= <-] & Hr)]. rewrite Hrtx in Hr. discriminate.
      * split; [intros _; eauto | intros _; cbn; auto].
      * distinct_ops.
    + change (ops (snd (Ok tt, w2,
                        succeeded [SimHasGui] ++
                        [EvCall SimHasRtxSensors (Some e); sim_failure_record e])))
        with [SimHasGui; SimHasRtxSensors].
      split; [|split].
      * split; [absurd_in|].
        intros [(w' & [=])|(w' & w'' & [= <-] & Hr)]. rewrite Hrtx in Hr. discriminate.
      * split; [intros _; eauto | intros _; cbn; auto].
      * distinct_ops.
  - change (ops (snd (Ok tt, w1, [EvCall SimHasGui (Some e); sim_failure_record e])))
      with [SimHasGui].
    split; [|split].
    + split; [absurd_in | intros [(w' & [=])|(w' & w'' & [=] & _)]].
    + split; [absurd_in | intros (w' & [=])].
    + distinct_ops.
Qed.

(** X4. Without a handler, or with a handler that has no scene, the settle
    phase does nothing at all: the sim is neither asked nor rendered even
    when the handler has one, and a barrier without material wait is the
    async flush alone. *)
Theorem no_scene_no_settle self (wait_for_materials : bool) (settle_passes : Z) w :
  (handler self = None \/ exists h, handler self = Some h /\ scene h = None) ->
  _settle_renderer_frames self settle_passes w = (Ok tt, w, []) /\
  filter is_settle_op
    (ops (snd (_sync_visual_updates sys self wait_for_materials settle_passes w))) = [] /\
  _sync_visual_updates sys self false settle_passes w = _wait_for_async_engine sys self w.
Proof.
  intros Hno.
  assert (Hs : forall w1, _settle_renderer_frames self settle_passes w1 = (Ok tt, w1, [])).
  { intros w1. unfold _settle_renderer_frames.
    destruct Hno as [->|(h & -> & ->)]; reflexivity. }
  split; [apply Hs|]. split.
  - destruct (sync_visual_updates_outcome sys self wait_for_materials settle_passes w)
      as (w1 & tm & r & w2 & ts & _ & Hts & [Htm _] & _ & _ & _ & _ & _ & Hout).
    rewrite Hs in Hts. injection Hts as <- _ <-.
    destruct Hout as (w3 & ra & ta & _ & [Hta _] & ->). cbn [snd app].
    rewrite ops_app, filter_app.
    rewrite (only_filter_out is_material_op is_settle_op tm); [| now intros [] | exact Htm].
    rewrite (only_filter_out is_async_op is_settle_op (EvCall ImportAsyncEngine ra :: ta));
      [reflexivity | now intros [] | exact Hta].
  - unfold _sync_visual_updates, bind, ret. rewrite Hs.
    destruct (_wait_for_async_engine sys self w) as [[r w'] t]. reflexivity.
Qed.

(** X5. When the material library has the module-level wait function, that
    function is the one operation made after the import, whatever the
    library has besides: the singleton accessor is not called, no method
    is probed, and the world is the one the function left. *)
Theorem module_wait_preferred self w matlib w1 wait_fn :
  import_material_library sys w = (Ok matlib, w1) ->
  wait_for_pending_refreshes matlib = Some wait_fn ->
  ops (snd (_wait_for_material_library sys self w)) = [ImportMaterialLibrary; MatlibWaitFn] /\
  snd (fst (_wait_for_material_library sys self w)) = snd (wait_fn w1) /\
  ~ In no_api_record (snd (_wait_for_material_library sys self w)).
Proof.
  intros Himp Hfn. rewrite (material_module_wait sys self w matlib w1 wait_fn Himp Hfn).
  destruct (wait_fn w1) as [[[]|e] w2].
  - split; [reflexivity|]. split; [reflexivity|]. absurd_in.
  - unfold material_failure_record, no_api_record.
    destruct (exn_class_of e); (split; [reflexivity|]); (split; [reflexivity|]); absurd_in.
Qed.

(** X6. When the library has no module-level wait function and its singleton
    accessor returns an instance, exactly one method of the instance is
    called: the first of the four candidate names, in the order of the
    code, that is a callable attribute; with no such name nothing more is
    called and the "no wait API" record is written. *)
Theorem instance_probe_first_callable self w matlib w1 get_inst instance w2 :
  import_material_library sys w = (Ok matlib, w1) ->
  wait_for_pending_refreshes matlib = None ->
  get_instance matlib = Some get_inst ->
  get_inst w1 = (Ok instance, w2) ->
  ops (snd (_wait_for_material_library sys self w)) =
    [ImportMaterialLibrary; MatlibGetInstance] ++
    match first_callable instance with
    | Some name => [InstanceWait name]
    | None => []
    end /\
  (first_callable instance = None ->
   _wait_for_material_library sys self w =
     (Ok tt, w2, succeeded [ImportMaterialLibrary; MatlibGetInstance] ++ [no_api_record])).
Proof.
  intros Himp Hfn Hget Hinst.
  pose proof (material_instance sys self w matlib w1 get_inst instance w2 Himp Hfn Hget Hinst)
    as H.
  destruct (first_callable instance) as [name|].
  - destruct H as (_ & wait_method & _ & ->). split; [|discriminate].
    destruct (wait_method w2) as [[[]|e] w3]; [reflexivity|].
    unfold material_failure_record. destruct (exn_class_of e); reflexivity.
  - rewrite H. split; [reflexivity|auto].
Qed.

(** X7. Whatever the material library is, the wait begins by its import and
    calls at most one wait function or method; the "no wait API" record is
    written exactly when none was called and nothing raised. *)
Theorem material_wait_at_most_once self w :
  hd_error (ops (snd (_wait_for_material_library sys self w))) = Some ImportMaterialLibrary /\
  (length (filter is_wait_op (ops (snd (_wait_for_material_library sys self w)))) <= 1)%nat /\
  (In no_api_record (snd (_wait_for_material_library sys self w)) <->
   filter is_wait_op (ops (snd (_wait_for_material_library sys self w))) = [] /\
   raised_nothing (snd (_wait_for_material_library sys self w)) = true).
Proof.
  destruct (wait_for_material_library_cases sys self w) as (w' & t & -> & Ht).
  cbn [snd].
  destruct Ht; unfold material_failure_record, no_api_record;
    try destruct (exn_class_of e);
    (split; [reflexivity|]); (split; [vm_compute; lia|]);
    (split; [ intros Hin; cbn in Hin;
              repeat (destruct Hin as [Hin|Hin]; try discriminate Hin);
              try contradiction; split; reflexivity
            | intros [Hf Hr]; vm_compute in Hf; vm_compute in Hr;
              try discriminate Hf; try discriminate Hr; cbn; auto 6 ]).
Qed.

(** X8. A record at warning level is never written without cause: each one
    comes right after an operation of the material wait or of the async
    flush that raised something other than an [ImportError], and its text
    ends with the message of that exception.  The settle loop writes none. *)
Theorem warnings_are_justified self (wait_for_materials : bool) (settle_passes : Z) w :
  warnings_justified
    (snd (_sync_visual_updates sys self wait_for_materials settle_passes w)) = true /\
  calm (snd (_settle_renderer_frames self settle_passes w)) = true.
Proof.
  split.
  2: { destruct (settle_renderer_frames_any self settle_passes w)
         as (r & w' & t & -> & _ & Hc & _). exact Hc. }
  destruct (sync_visual_updates_outcome sys self wait_for_materials settle_passes w)
    as (w1 & tm & r & w2 & ts & Hm & _ & _ & _ & _ & Hcs & _ & _ & Hout).
  unfold warnings_justified.
  assert (Htm : forall prev, warnings_after prev tm = true).
  { destruct wait_for_materials.
    - destruct (wait_for_material_library_cases sys self w) as (w' & t & Hrun & Ht).
      rewrite Hm in Hrun. injection Hrun as _ ->. now apply material_trace_warnings.
    - injection Hm as _ <-. reflexivity. }
  assert (Hts : forall prev, warnings_after prev ts = true).
  { intros prev. now apply calm_warnings_after. }
  destruct r as [[]|e].
  - destruct Hout as (w3 & ra & ta & Ha & _ & ->). cbn [snd].
    assert (Hta : forall prev, warnings_after prev (EvCall ImportAsyncEngine ra :: ta) = true).
    { intros prev. pose proof (async_trace_warnings sys self w2 prev) as Hc.
      now rewrite Ha in Hc. }
    apply warnings_after_app; [apply Htm|]. intros p.
    apply warnings_after_app; [apply Hts|apply Hta].
  - rewrite Hout. cbn [snd]. apply warnings_after_app; [apply Htm|apply Hts].
Qed.

(** X9. In a deployment where neither Omniverse module can be imported, the
    barrier still runs the settle loop.  Its trace is: when the material
    wait is asked for, the failed import of the material library and its
    debug record; then the trace of the settle loop, run from the world
    that import left; then, when the loop returned, the failed import of
    the async engine accessor and its debug record, after which the
    barrier returns.  Nothing else is attempted, and no record is at
    warning level. *)
Theorem headless_barrier_is_quiet self (wait_for_materials : bool) (settle_passes : Z) w :
  (forall w0, exists e w1,
      import_material_library sys w0 = (Raise e, w1) /\ exn_class_of e = ImportError) ->
  (forall w0, exists e w1,
      import_get_async_engine sys w0 = (Raise e, w1) /\ exn_class_of e = ImportError) ->
  exists w1 tm r w2 ts,
    (if wait_for_materials
     then exists e,
         import_material_library sys w = (Raise e, w1) /\
         tm = [EvCall ImportMaterialLibrary (Some e);
               EvLog DEBUG "Material library not available; skipping wait"]
     else w1 = w /\ tm = []) /\
    _settle_renderer_frames self settle_passes w1 = (r, w2, ts) /\
    (proper self -> r = Ok tt) /\
    match r with
    | Ok _ =>
        exists e w3,
          import_get_async_engine sys w2 = (Raise e, w3) /\
          _sync_visual_updates sys self wait_for_materials settle_passes w =
            (Ok tt, w3,
             tm ++ ts ++
             [EvCall ImportAsyncEngine (Some e);
              EvLog DEBUG "Omniverse async engine not available; skipping wait_for_tasks"])
    | Raise e =>
        _sync_visual_updates sys self wait_for_materials settle_passes w =
          (Raise e, w2, tm ++ ts)
    end /\
    calm (snd (_sync_visual_updates sys self wait_for_materials settle_passes w)) = true.
Proof.
  intros Hmat Hasync.
  destruct (sync_visual_updates_outcome sys self wait_for_materials settle_passes w)
    as (w1 & tm & r & w2 & ts & Hm & Hs & _ & _ & _ & Hcs & _ & _ & Hout).
  assert (Htm : (if wait_for_materials
                 then exists e,
                     import_material_library sys w = (Raise e, w1) /\
                     tm = [EvCall ImportMaterialLibrary (Some e);
                           EvLog DEBUG "Material library not available; skipping wait"]
                 else w1 = w /\ tm = []) /\ calm tm = true).
  { destruct wait_for_materials.
    - destruct (Hmat w) as (e & w' & Himp & Hc).
      rewrite (material_import_failed sys self w e w' Himp) in Hm.
      unfold material_failure_record in Hm. rewrite Hc in Hm.
      injection Hm as <- <-. split; [|reflexivity]. exists e. auto.
    - injection Hm as <- <-. split; [|reflexivity]. auto. }
  destruct Htm as [Htm Hcm].
  exists w1, tm, r, w2, ts. split; [exact Htm|]. split; [exact Hs|]. split.
  { intros Hp. destruct (settle_renderer_frames_proper self settle_passes w1 Hp)
      as (w2' & ts' & Hs').
    rewrite Hs in Hs'. now injection Hs' as -> _ _. }
  destruct r as [[]|e].
  - destruct Hout as (w3 & ra & ta & Ha & _ & Hsync).
    destruct (Hasync w2) as (e & w' & Himp & Hc).
    rewrite (async_import_failed sys self w2 e w' Himp) in Ha.
    unfold async_failure_record in Ha. rewrite Hc in Ha.
    injection Ha as <- <- <-. split.
    + exists e, w'. auto.
    + rewrite Hsync. cbn [snd]. now rewrite !calm_app, Hcm, Hcs.
  - split; [exact Hout|]. rewrite Hout. cbn [snd]. now rewrite calm_app, Hcm, Hcs.
Qed.

(** X10. The async flush imports the engine accessor, calls it, then calls
    [wait_for_tasks], and stops at the first of the three that raises:
    nothing is called after a failure, one record is written for it, and a
    flush in which nothing raised writes no record. *)
Theorem async_flush_stops_at_failure self w :
  fst (fst (_wait_for_async_engine sys self w)) = Ok tt /\
  (snd (_wait_for_async_engine sys self w) = succeeded async_ops \/
   exists (k : nat) o e,
     async_ops !! k = Some o /\
     snd (_wait_for_async_engine sys self w) =
       succeeded (take k async_ops) ++ [EvCall o (Some e); async_failure_record e]).
Proof.
  destruct (wait_for_async_engine_cases sys self w) as (w' & [->|(k & o & e & Hk & ->)]).
  - split; [reflexivity|]. now left.
  - split; [reflexivity|]. right. exists k, o, e. auto.
Qed.


(** X15. With a handler that has a scene whose sensors are a mapping that
    stays as it is, and a count of the state of the process that each
    scene update that returns increases by one and that the sim and the
    sensors leave alone: when no scene update raised, the settle phase
    returns, has added exactly [max(0, settle_passes)] to the count, and
    attempted as many scene updates, each with [dt = 0]. *)
Theorem settle_counts_scene_updates self h sc (l : list (string * Sensor W))
    (c : World W -> nat) (settle_passes : Z) w :
  handler self = Some h ->
  scene h = Some sc ->
  steady sc l ->
  counts_updates c sc ->
  quiet_sim c (sim h) ->
  quiet_sensors c l ->
  scene_updates_returned (snd (_settle_renderer_frames self settle_passes w)) = true ->
  fst (fst (_settle_renderer_frames self settle_passes w)) = Ok tt /\
  c (snd (fst (_settle_renderer_frames self settle_passes w))) =
    (c w + Z.to_nat (Z.max 0 settle_passes))%nat /\
  scene_updates (snd (_settle_renderer_frames self settle_passes w)) =
    replicate (Z.to_nat (Z.max 0 settle_passes)) (0, None).
Proof.
  intros Hh Hsc Hst Hcount Hsim Hsens Hret.
  destruct (settle_renderer_frames_steady self h sc l settle_passes w Hh Hsc Hst)
    as (w' & t & Hrun & Hout & _).
  rewrite Hrun in Hret |- *. cbn [fst snd] in *.
  pose proof (settle_outcome_returned _ _ _ Hout Hret) as Hups.
  split; [reflexivity|]. split; [|exact Hups].
  destruct (settle_loop_counts c sc (sim h) l Hst Hcount Hsim Hsens
              (Z.to_nat (Z.max 0 settle_passes)) w) as (w2 & t2 & Hloop & Hc).
  unfold _settle_renderer_frames in Hrun. rewrite Hh, Hsc in Hrun. cbn zeta in Hrun.
  rewrite Hrun in Hloop. injection Hloop as <- <-.
  rewrite Hc. unfold completed_updates. rewrite Hups.
  rewrite <- (app_nil_r (replicate _ _)), completed_replicate. simpl. lia.
Qed.

End BarrierProperties.

(** *** Instances of the conditional statements *)

Lemma phases_in_order_witness :
  proper (Demo.on_stage 2) /\
  exists w1 tm r w2 ts,
    _wait_for_material_library Demo.kit (Demo.on_stage 2) Demo.w0 = (Ok tt, w1, tm) /\
    _settle_renderer_frames (Demo.on_stage 2) 3 w1 = (r, w2, ts) /\
    r = Ok tt.
Proof.
  assert (Hp : proper (Demo.on_stage 2)) by (exists Demo.cams; intros w w'; reflexivity).
  split; [exact Hp|].
  destruct (phases_in_order Demo.kit (Demo.on_stage 2) true 3 Demo.w0)
    as (w1 & tm & r & w2 & ts & Hm & Hs & _ & _ & Hr & _).
  exists w1, tm, r, w2, ts. split; [exact Hm|]. split; [exact Hs|exact (Hr Hp)].
Defined.

Lemma settle_passes_in_order_witness :
  handler (Demo.on_stage 2) = Some (Demo.stage 2) /\
  scene (Demo.stage 2) = Some (Demo.set_of 2) /\
  steady (Demo.set_of 2) Demo.cams /\
  settle_trace (sensor_keys Demo.cams) (Z.to_nat (Z.max 0 4))
    (snd (_settle_renderer_frames (Demo.on_stage 2) 4 Demo.w0)).
Proof.
  assert (Hst : steady (Demo.set_of 2) Demo.cams) by (intros w w'; reflexivity).
  split; [reflexivity|]. split; [reflexivity|]. split; [exact Hst|].
  apply (settle_passes_in_order (Demo.on_stage 2) (Demo.stage 2) (Demo.set_of 2) Demo.cams
           4 Demo.w0 eq_refl eq_refl Hst).
Defined.

Lemma no_scene_no_settle_witness :
  (handler Studio.on_empty_stage = None \/
   exists h, handler Studio.on_empty_stage = Some h /\ scene h = None) /\
  _settle_renderer_frames Studio.on_empty_stage 3 Demo.w0 = (Ok tt, Demo.w0, []) /\
  filter is_settle_op
    (ops (snd (_sync_visual_updates Demo.kit Studio.on_empty_stage true 3 Demo.w0))) = [].
Proof.
  assert (H : handler Studio.on_empty_stage = None \/
              exists h, handler Studio.on_empty_stage = Some h /\ scene h = None).
  { right. exists Studio.empty_stage. split; reflexivity. }
  split; [exact H|].
  destruct (no_scene_no_settle Demo.kit Studio.on_empty_stage true 3 Demo.w0 H)
    as (H1 & H2 & _).
  split; [exact H1|exact H2].
Defined.

Lemma module_wait_preferred_witness :
  import_material_library Studio.direct Demo.w0 = (Ok Studio.direct_library, Demo.w0) /\
  wait_for_pending_refreshes Studio.direct_library = Some Demo.tick /\
  ops (snd (_wait_for_material_library Studio.direct Demo.blank Demo.w0)) =
    [ImportMaterialLibrary; MatlibWaitFn].
Proof.
  split; [reflexivity|]. split; [reflexivity|].
  apply (module_wait_preferred Studio.direct Demo.blank Demo.w0 Studio.direct_library
           Demo.w0 Demo.tick); reflexivity.
Defined.

Lemma instance_probe_first_callable_witness :
  import_material_library Studio.probing Demo.w0 = (Ok Studio.probing_library, Demo.w0) /\
  wait_for_pending_refreshes Studio.probing_library = None /\
  get_instance Studio.probing_library = Some (Demo.answer Studio.two_methods) /\
  Demo.answer Studio.two_methods Demo.w0 = (Ok Studio.two_methods, Demo.w0) /\
  ops (snd (_wait_for_material_library Studio.probing Demo.blank Demo.w0)) =
    [ImportMaterialLibrary; MatlibGetInstance; InstanceWait "wait_for_pending_compiles"].
Proof.
  split; [reflexivity|]. split; [reflexivity|]. split; [reflexivity|]. split; [reflexivity|].
  apply (instance_probe_first_callable Studio.probing Demo.blank Demo.w0
           Studio.probing_library Demo.w0 (Demo.answer Studio.two_methods)
           Studio.two_methods Demo.w0); reflexivity.
Defined.

Lemma headless_barrier_is_quiet_witness :
  (forall w0 : World nat, exists e w1,
      import_material_library Demo.headless w0 = (Raise e, w1) /\
      exn_class_of e = ImportError) /\
  (forall w0 : World nat, exists e w1,
      import_get_async_engine Demo.headless w0 = (Raise e, w1) /\
      exn_class_of e = ImportError) /\
  proper (Demo.on_stage 2) /\
  exists w1 tm w2 ts e w3,
    import_material_library Demo.headless Demo.w0 = (Raise e, w1) /\
    tm = [EvCall ImportMaterialLibrary (Some e);
          EvLog DEBUG "Material library not available; skipping wait"] /\
    _settle_renderer_frames (Demo.on_stage 2) 3 w1 = (Ok tt, w2, ts) /\
    _sync_visual_updates Demo.headless (Demo.on_stage 2) true 3 Demo.w0 =
      (Ok tt, w3,
       tm ++ ts ++
       [EvCall ImportAsyncEngine (Some e);
        EvLog DEBUG "Omniverse async engine not available; skipping wait_for_tasks"]) /\
    calm (snd (_sync_visual_updates Demo.headless (Demo.on_stage 2) true 3 Demo.w0)) = true.
Proof.
  assert (H1 : forall w0 : World nat, exists e w1,
             import_material_library Demo.headless w0 = (Raise e, w1) /\
             exn_class_of e = ImportError)
    by (intros w0; do 2 eexists; split; reflexivity).
  assert (H2 : forall w0 : World nat, exists e w1,
             import_get_async_engine Demo.headless w0 = (Raise e, w1) /\
             exn_class_of e = ImportError)
    by (intros w0; do 2 eexists; split; reflexivity).
  assert (Hp : proper (Demo.on_stage 2)) by (exists Demo.cams; intros w w'; reflexivity).
  split; [exact H1|]. split; [exact H2|]. split; [exact Hp|].
  destruct (headless_barrier_is_quiet Demo.headless (Demo.on_stage 2) true 3 Demo.w0 H1 H2)
    as (w1 & tm & r & w2 & ts & (e & Himp & Htm) & Hs & Hr & Hout & Hcalm).
  rewrite (Hr Hp) in Hs, Hout. destruct Hout as (e' & w3 & Himp' & Hsync).
  assert (He : e' = e).
  { injection Himp as <- _. injection Himp' as <- _. reflexivity. }
  subst e'. exists w1, tm, w2, ts, e, w3. auto.
Defined.


Lemma settle_counts_scene_updates_witness :
  handler (Demo.on_stage 0) = Some (Demo.stage 0) /\
  scene (Demo.stage 0) = Some (Demo.set_of 0) /\
  steady (Demo.set_of 0) Demo.cams /\
  counts_updates host (Demo.set_of 0) /\
  quiet_sim host (sim (Demo.stage 0)) /\
  quiet_sensors host Demo.cams /\
  scene_updates_returned (snd (_settle_renderer_frames (Demo.on_stage 0) 3 Demo.w0)) = true /\
  host (snd (fst (_settle_renderer_frames (Demo.on_stage 0) 3 Demo.w0))) = 3%nat /\
  scene_updates (snd (_settle_renderer_frames (Demo.on_stage 0) 3 Demo.w0)) =
    [(0, None); (0, None); (0, None)].
Proof.
  assert (Hst : steady (Demo.set_of 0) Demo.cams) by (intros w w'; reflexivity).
  assert (Hcount : counts_updates host (Demo.set_of 0)) by (intros dt w; reflexivity).
  assert (Hsim : quiet_sim host (sim (Demo.stage 0)))
    by (repeat split; intros w; reflexivity).
  assert (Hsens : quiet_sensors host Demo.cams)
    by (repeat constructor; intros w; reflexivity).
  assert (Hret : scene_updates_returned
                   (snd (_settle_renderer_frames (Demo.on_stage 0) 3 Demo.w0)) = true)
    by (vm_compute; reflexivity).
  split; [reflexivity|]. split; [reflexivity|]. split; [exact Hst|]. split; [exact Hcount|].
  split; [exact Hsim|]. split; [exact Hsens|]. split; [exact Hret|].
  destruct (settle_counts_scene_updates (Demo.on_stage 0) (Demo.stage 0)
              (Demo.set_of 0) Demo.cams host 3 Demo.w0 eq_refl eq_refl Hst Hcount Hsim Hsens
              Hret) as (_ & Hc & Hups).
  split; [exact Hc|exact Hups].
Defined.
